(** * Vistro backend: products, orders and identifier serialization

    A shallow embedding of [main.py] and [schemas.py].  Python dictionaries
    are finite maps from strings, the document store is a record of
    collections threaded through a small state-and-exception monad that also
    logs every store operation, and [serialize_doc] is given twice: once on
    immutable document values, once on a heap of mutable objects. *)

From Stdlib Require Import Floats Ascii NArith.
From Stdlib Require String.
From stdpp Require Import gmap strings list fin_maps.

Set Warnings "-register-all".
Open Scope string_scope.
Open Scope list_scope.

(** ** [bson.ObjectId]

    A store identifier is twelve bytes, read here as a number below
    [2 ^ 96].  The constructor accepts a string of exactly 24 hexadecimal
    digits (either case); [str] prints 24 lowercase digits. *)
Module ObjectId.

Definition t := N.

Definition bound : N := 2 ^ 96.

Definition hex_digit (n : N) : ascii :=
  if (n <? 10)%N then ascii_of_N (48 + n) else ascii_of_N (87 + n).

Definition hex_val (c : ascii) : option N :=
  let n := N_of_ascii c in
  if ((48 <=? n) && (n <=? 57))%N then Some (n - 48)%N
  else if ((97 <=? n) && (n <=? 102))%N then Some (n - 87)%N
  else if ((65 <=? n) && (n <=? 70))%N then Some (n - 55)%N
  else None.

(** [k] digits of [n], most significant first. *)
Fixpoint to_hex (k : nat) (n : N) : string :=
  match k with
  | O => ""
  | S k' => to_hex k' (n / 16) +:+ String (hex_digit (n mod 16)) ""
  end.

Fixpoint of_hex (s : string) (acc : N) : option N :=
  match s with
  | EmptyString => Some acc
  | String c s' =>
      match hex_val c with
      | Some d => of_hex s' (16 * acc + d)
      | None => None
      end
  end.

Definition str (o : t) : string := to_hex 24 o.

(** [ObjectId(s)]: [None] stands for the [InvalidId] exception. *)
Definition parse (s : string) : option t :=
  if decide (String.length s = 24%nat) then of_hex s 0 else None.

End ObjectId.

(** ** Documents

    The values a document can hold: JSON-like scalars, the store's native
    identifier, lists and sub-documents. *)
Inductive value : Type :=
| VNone
| VBool (b : bool)
| VInt (n : Z)
| VFloat (x : float)
| VStr (s : string)
| VOid (o : ObjectId.t)
| VList (l : list value)
| VDict (d : gmap string value).

(** [isinstance(v, ObjectId)] somewhere inside [v], at any depth. *)
Fixpoint has_oid (v : value) : bool :=
  match v with
  | VOid _ => true
  | VList l => existsb has_oid l
  | VDict d => map_fold (λ _ v' acc, has_oid v' || acc) false d
  | _ => false
  end.

(** Python's [str] on values other than strings and identifiers (numbers,
    containers, ...) is the interpreter's business; the development is
    parametric in it. *)
Class PyStr := str_other : value → string.

Definition py_str `{PyStr} (v : value) : string :=
  match v with
  | VOid o => ObjectId.str o
  | VStr s => s
  | _ => str_other v
  end.

(** The loop body of [serialize_doc]:
    [if isinstance(v, ObjectId): d[k] = str(v)]. *)
Definition stringify (v : value) : value :=
  match v with
  | VOid o => VStr (ObjectId.str o)
  | _ => v
  end.

(** [serialize_doc(doc)], where [None] is Python's [None]. *)
Definition serialize_doc `{PyStr} (doc : option (gmap string value))
  : option (gmap string value) :=
  match doc with
  | None => None
  | Some m =>
      if decide (size m = 0%nat) then Some m
      else
        let d :=
          match m !! "_id" with
          | Some v => <["id" := VStr (py_str v)]> (delete "_id" m)
          | None => m
          end in
        Some (stringify <$> d)
  end.

(** A handler's return value as the JSON-able value FastAPI encodes. *)
Definition to_json (doc : option (gmap string value)) : value :=
  match doc with
  | None => VNone
  | Some d => VDict d
  end.

(** ** Schemas ([schemas.py])

    Each pydantic model is a record of its declared fields; the [Field]
    bounds are collected by [errors], which lists, for every violated
    constraint, the path of the field and the constraint.  An instance of
    the Python class exists only when that list is empty. *)
Inductive segment := Key (name : string) | Idx (i : nat).

Inductive constraint := Ge (bound : Z) | EmailFormat.

Record FieldError := { loc : list segment; violated : constraint }.

(** Syntactic validity of an address, decided by pydantic's [EmailStr]. *)
Class EmailSyntax := email_ok : string → bool.

(** [model_dump()] of a pydantic model. *)
Class BaseModel (A : Type) := model_dump : A → gmap string value.

Definition dump_opt (o : option string) : value :=
  match o with
  | Some s => VStr s
  | None => VNone
  end.

(** Prefix every error of element [i] of a list field with its position. *)
Definition at_index {A} (field : string) (errs : A → list FieldError)
    (l : list A) : list FieldError :=
  mjoin (imap (λ i a,
    (λ e, {| loc := Key field :: Idx i :: loc e; violated := violated e |})
      <$> errs a) l).

Definition ge_float (field : string) (x : float) : list FieldError :=
  if (0 <=? x)%float then []
  else [{| loc := [Key field]; violated := Ge 0 |}].

Definition ge_int (field : string) (bound n : Z) : list FieldError :=
  if (bound <=? n)%Z then []
  else [{| loc := [Key field]; violated := Ge bound |}].

Module ProductVariant.

Record t := {
  size : option string;
  color : option string;
  sku : option string;
  stock : Z;
}.

Definition errors (v : t) : list FieldError := ge_int "stock" 0 (stock v).

Definition dump (v : t) : gmap string value :=
  list_to_map [
    ("size", dump_opt (size v));
    ("color", dump_opt (color v));
    ("sku", dump_opt (sku v));
    ("stock", VInt (stock v))
  ].

End ProductVariant.

Module Product.

Record t := {
  title : string;
  description : option string;
  price : float;
  category : string;
  images : list string;
  brand : string;
  tags : list string;
  variants : list ProductVariant.t;
  featured : bool;
}.

Definition errors (p : t) : list FieldError :=
  ge_float "price" (price p)
  ++ at_index "variants" ProductVariant.errors (variants p).

Definition dump (p : t) : gmap string value :=
  list_to_map [
    ("title", VStr (title p));
    ("description", dump_opt (description p));
    ("price", VFloat (price p));
    ("category", VStr (category p));
    ("images", VList (VStr <$> images p));
    ("brand", VStr (brand p));
    ("tags", VList (VStr <$> tags p));
    ("variants", VList ((λ v, VDict (ProductVariant.dump v)) <$> variants p));
    ("featured", VBool (featured p))
  ].

End Product.

Module CartItem.

Record t := {
  product_id : string;
  quantity : Z;
  size : option string;
  color : option string;
}.

Definition errors (i : t) : list FieldError := ge_int "quantity" 1 (quantity i).

Definition dump (i : t) : gmap string value :=
  list_to_map [
    ("product_id", VStr (product_id i));
    ("quantity", VInt (quantity i));
    ("size", dump_opt (size i));
    ("color", dump_opt (color i))
  ].

End CartItem.

Module CustomerInfo.

Record t := {
  name : string;
  email : string;
  address : string;
  city : string;
  country : string;
  postal_code : string;
}.

Definition errors `{EmailSyntax} (c : t) : list FieldError :=
  if email_ok (email c) then []
  else [{| loc := [Key "email"]; violated := EmailFormat |}].

Definition dump (c : t) : gmap string value :=
  list_to_map [
    ("name", VStr (name c));
    ("email", VStr (email c));
    ("address", VStr (address c));
    ("city", VStr (city c));
    ("country", VStr (country c));
    ("postal_code", VStr (postal_code c))
  ].

End CustomerInfo.

Module Order.

Record t := {
  items : list CartItem.t;
  subtotal : float;
  shipping : float;
  total : float;
  currency : string;
  status : string;
  customer : CustomerInfo.t;
}.

Definition errors `{EmailSyntax} (o : t) : list FieldError :=
  at_index "items" CartItem.errors (items o)
  ++ ge_float "subtotal" (subtotal o)
  ++ ge_float "shipping" (shipping o)
  ++ ge_float "total" (total o)
  ++ ((λ e, {| loc := Key "customer" :: loc e; violated := violated e |})
        <$> CustomerInfo.errors (customer o)).

Definition dump (o : t) : gmap string value :=
  list_to_map [
    ("items", VList ((λ i, VDict (CartItem.dump i)) <$> items o));
    ("subtotal", VFloat (subtotal o));
    ("shipping", VFloat (shipping o));
    ("total", VFloat (total o));
    ("currency", VStr (currency o));
    ("status", VStr (status o));
    ("customer", VDict (CustomerInfo.dump (customer o)))
  ].

End Order.

#[global] Instance Product_model : BaseModel Product.t := Product.dump.
#[global] Instance Order_model : BaseModel Order.t := Order.dump.

(** ** The document store

    A collection is the list of its documents in insertion order, every
    document carrying its [_id].  Filters are the flat equality mappings the
    handlers build: a string, a boolean or an identifier per key. *)
Inductive fval := FStr (s : string) | FBool (b : bool) | FOid (o : ObjectId.t).

Definition field_matches (d : gmap string value) (k : string) (f : fval) : bool :=
  match d !! k, f with
  | Some (VStr a), FStr b => bool_decide (a = b)
  | Some (VBool a), FBool b => bool_decide (a = b)
  | Some (VOid a), FOid b => bool_decide (a = b)
  | _, _ => false
  end.

Definition matches (q : gmap string fval) (d : gmap string value) : bool :=
  bool_decide (map_Forall (λ k f, field_matches d k f = true) q).

Record Database := {
  collections : gmap string (list (gmap string value));
  next_oid : ObjectId.t;
}.

(** [db[name]]: a collection that was never written to is empty. *)
Definition collection (db : Database) (name : string)
  : list (gmap string value) :=
  default [] (collections db !! name).

(** What a request asked of the store, in order. *)
Inductive StoreOp :=
| OpFindOne (name : string) (q : gmap string fval)
| OpFind (name : string) (q : gmap string fval)
| OpCount (name : string) (q : gmap string fval)
| OpInsert (name : string) (d : gmap string value).

Definition is_write (op : StoreOp) : bool :=
  match op with
  | OpInsert _ _ => true
  | _ => false
  end.

(** ** Exceptions, outcomes and the handler monad

    The module-level [db] is [None] when no store is configured.  A
    computation takes it, and yields a value or an exception, the store as
    it leaves it, and the operations it issued. *)
Inductive exc :=
| HTTPException (status_code : nat) (detail : string)
| RequestValidationError (errs : list FieldError)
| PyError (kind : string).


Record Outcome (A : Type) := MkOutcome {
  result : exc + A;
  final : option Database;
  ops : list StoreOp;
}.

Arguments MkOutcome {A} _ _ _.
Arguments result {A} _.
Arguments final {A} _.
Arguments ops {A} _.

Definition M (A : Type) : Type := option Database → Outcome A.

Definition ret {A} (a : A) : M A := λ w, MkOutcome (inr a) w [].

Definition raise {A} (e : exc) : M A := λ w, MkOutcome (inl e) w [].

Definition bind {A B} (m : M A) (k : A → M B) : M B := λ w,
  let r := m w in
  match result r with
  | inl e => MkOutcome (inl e) (final r) (ops r)
  | inr a =>
      let r' := k a (final r) in
      MkOutcome (result r') (final r') (ops r ++ ops r')
  end.

(** [try: body  except Exception: handler]. *)
Definition try_except {A} (body : M A) (handler : exc → M A) : M A := λ w,
  let r := body w in
  match result r with
  | inl e =>
      let r' := handler e (final r) in
      MkOutcome (result r') (final r') (ops r ++ ops r')
  | inr _ => r
  end.

#[global] Instance M_ret : MRet M := @ret.
#[global] Instance M_bind : MBind M := λ A B k m, bind m k.

(** [for x in l: body(x)]. *)
Fixpoint for_each {A} (l : list A) (body : A → M ()) : M () :=
  match l with
  | [] => ret ()
  | x :: l' => body x ;; for_each l' body
  end.

(** Using [db] while it is [None]. *)
Definition no_db {A} : M A :=
  raise (PyError "TypeError: 'NoneType' object is not subscriptable").

(** [ObjectId(s)]. *)
Definition ObjectId_new (s : string) : M ObjectId.t :=
  match ObjectId.parse s with
  | Some o => ret o
  | None => raise (PyError "InvalidId")
  end.

(** [db[name].find_one(q)]: the first matching document, or [None]. *)
Definition find_one (name : string) (q : gmap string fval)
  : M (option (gmap string value)) := λ w,
  match w with
  | None => no_db w
  | Some db =>
      MkOutcome (inr (head (filter (λ d, matches q d) (collection db name))))
        w [OpFindOne name q]
  end.

(** [db[name].find(q)]. *)
Definition find (name : string) (q : gmap string fval)
  : M (list (gmap string value)) := λ w,
  match w with
  | None => no_db w
  | Some db =>
      MkOutcome (inr (filter (λ d, matches q d) (collection db name)))
        w [OpFind name q]
  end.

(** [db[name].count_documents(q)]. *)
Definition count_documents (name : string) (q : gmap string fval) : M nat := λ w,
  match w with
  | None => no_db w
  | Some db =>
      MkOutcome (inr (length (filter (λ d, matches q d) (collection db name))))
        w [OpCount name q]
  end.

(** [db[name].insert_one(d)]: the store picks the next identifier, files the
    document under it and returns it. *)
Definition insert_one (name : string) (d : gmap string value) : M ObjectId.t := λ w,
  match w with
  | None => no_db w
  | Some db =>
      let o := next_oid db in
      let d' := <["_id" := VOid o]> d in
      MkOutcome (inr o)
        (Some {| collections := <[name := collection db name ++ [d']]> (collections db);
                 next_oid := N.succ o |})
        [OpInsert name d']
  end.

(** Modelled from the spec: [get_documents] of the absent [database.py],
    the gateway's [find(collection, filter)], which returns the documents
    that agree with the flat equality filter. *)
Definition get_documents (collection_name : string) (filter_dict : gmap string fval)
  : M (list (gmap string value)) :=
  find collection_name filter_dict.

(** Modelled from the spec: [create_document] of the absent [database.py],
    the gateway's [insert(collection, entity)], which serializes the entity's
    fields, writes them as a new document and returns the store-generated
    identifier as a string. *)
Definition create_document `{BaseModel A} (collection_name : string) (data : A)
  : M string :=
  o ← insert_one collection_name (model_dump data);
  ret (ObjectId.str o).

(** ** Handlers ([main.py]) *)

(** [if db is None: raise HTTPException(status_code=500, ...)]. *)
Definition check_db : M () := λ w,
  match w with
  | None => raise (HTTPException 500 "Database not configured") w
  | Some _ => ret () w
  end.

(** [not doc] for what [find_one] returned. *)
Definition falsy_doc (doc : option (gmap string value)) : bool :=
  match doc with
  | None => true
  | Some d => bool_decide (size d = 0%nat)
  end.

(** The dictionary [list_products] builds from its two parameters: an empty
    string is falsy, [featured] is tested against [None]. *)
Definition build_query (category : option string) (featured : option bool)
  : gmap string fval :=
  let query : gmap string fval := ∅ in
  let query :=
    match category with
    | Some c => if decide (c = "") then query else <["category" := FStr c]> query
    | None => query
    end in
  match featured with
  | Some f => <["featured" := FBool f]> query
  | None => query
  end.

Section Handlers.
Context `{PyStr}.

Definition list_products (category : option string) (featured : option bool)
  : M value :=
  check_db ;;
  products ← get_documents "product" (build_query category featured);
  ret (VList ((λ p, to_json (serialize_doc (Some p))) <$> products)).

Definition get_product (product_id : string) : M value :=
  check_db ;;
  doc ← try_except
    (o ← ObjectId_new product_id; find_one "product" {["_id" := FOid o]})
    (λ _, raise (HTTPException 400 "Invalid product id"));
  if falsy_doc doc then raise (HTTPException 404 "Product not found")
  else ret (to_json (serialize_doc doc)).

Definition create_product (product : Product.t) : M value :=
  check_db ;;
  new_id ← create_document "product" product;
  o ← ObjectId_new new_id;
  doc ← find_one "product" {["_id" := FOid o]};
  ret (to_json (serialize_doc doc)).

(** The body of the loop over [order.items]. *)
Definition check_item (item : CartItem.t) : M () :=
  pid ← try_except (ObjectId_new (CartItem.product_id item))
    (λ _, raise (HTTPException 400
            ("Invalid product id: " +:+ CartItem.product_id item)));
  prod ← find_one "product" {["_id" := FOid pid]};
  if falsy_doc prod
  then raise (HTTPException 400
          ("Product not found: " +:+ CartItem.product_id item))
  else ret ().

Definition create_order (order : Order.t) : M value :=
  check_db ;;
  for_each (Order.items order) check_item ;;
  order_id ← create_document "order" order;
  o ← ObjectId_new order_id;
  doc ← find_one "order" {["_id" := FOid o]};
  ret (to_json (serialize_doc doc)).

End Handlers.

Definition sample_variants (color sku_prefix : string) (stock : Z)
  : list ProductVariant.t :=
  (λ s, {| ProductVariant.size := Some s;
           ProductVariant.color := Some color;
           ProductVariant.sku := Some (sku_prefix +:+ s);
           ProductVariant.stock := stock |}) <$> ["S"; "M"; "L"; "XL"].

Definition SAMPLE_PRODUCTS : list Product.t := [
  {| Product.title := "Vistro Classic Tee";
     Product.description := Some "Soft cotton tee with minimalist Vistro logo.";
     Product.price := 28%float;
     Product.category := "T-Shirts";
     Product.images :=
       ["https://images.unsplash.com/photo-1520975916090-3105956dac38?q=80&w=1200"];
     Product.brand := "Vistro";
     Product.tags := ["tee"; "classic"; "logo"];
     Product.variants := sample_variants "Black" "VT-TEE-BLK-" 50;
     Product.featured := true |};
  {| Product.title := "Vistro Cozy Hoodie";
     Product.description := Some "Premium fleece hoodie built for comfort.";
     Product.price := 64%float;
     Product.category := "Hoodies";
     Product.images :=
       ["https://images.unsplash.com/photo-1516826957135-700dedea698c?q=80&w=1200"];
     Product.brand := "Vistro";
     Product.tags := ["hoodie"; "fleece"; "cozy"];
     Product.variants := sample_variants "Heather Gray" "VT-HDY-GRY-" 30;
     Product.featured := true |};
  {| Product.title := "Vistro Performance Joggers";
     Product.description := Some "Stretch joggers for all-day movement.";
     Product.price := 54%float;
     Product.category := "Bottoms";
     Product.images :=
       ["https://images.unsplash.com/photo-1519741497674-611481863552?q=80&w=1200"];
     Product.brand := "Vistro";
     Product.tags := ["joggers"; "athleisure"];
     Product.variants := sample_variants "Charcoal" "VT-JGR-CHR-" 40;
     Product.featured := false |}
].

(** The loop of [seed_products]: insert each product, collect the ids. *)
Fixpoint seed_loop (ps : list Product.t) (inserted : list string) : M (list string) :=
  match ps with
  | [] => ret inserted
  | p :: ps' =>
      new_id ← create_document "product" p;
      seed_loop ps' (inserted ++ [new_id])
  end.

Definition seed_products : M value :=
  check_db ;;
  count ← count_documents "product" ∅;
  if decide (0 < count)%nat
  then ret (VDict (list_to_map [
         ("message", VStr "Products already seeded");
         ("count", VInt (Z.of_nat count))]))
  else
    inserted ← seed_loop SAMPLE_PRODUCTS [];
    ret (VDict (list_to_map [
      ("message", VStr "Seeded sample products");
      ("inserted", VList (VStr <$> inserted))])).

(** ** Request validation

    FastAPI builds the body parameter from the request before it calls the
    handler: when the schema reports errors the request is answered with
    422 and the handler does not run. *)
Definition validated {A B} (errors : A → list FieldError) (handler : A → M B)
    (body : A) : M B :=
  match errors body with
  | [] => handler body
  | errs => raise (RequestValidationError errs)
  end.

Definition post_products `{PyStr} : Product.t → M value :=
  validated Product.errors create_product.

Definition post_orders `{PyStr} `{EmailSyntax} : Order.t → M value :=
  validated Order.errors create_order.

(** ** [serialize_doc] on mutable objects

    Python dictionaries and lists are objects that are passed by reference
    and updated in place.  Here a heap maps locations to objects, a value is
    an immutable scalar or a reference, and every statement of
    [serialize_doc] is the heap operation it performs.  [None] as a result is
    a Python error other than the ones of interest ([dict] of a value that
    is not a mapping, a dangling reference). *)
Module Heap.

Inductive hval :=
| HNone
| HBool (b : bool)
| HInt (n : Z)
| HFloat (x : float)
| HStr (s : string)
| HOid (o : ObjectId.t)
| HRef (l : positive).

Inductive obj :=
| ODict (entries : gmap string hval)
| OList (elems : list hval).

(** [str] of a value other than a string or an identifier; it may read the
    heap (to print a container) but cannot change it. *)
Class HeapStr := str_other : gmap positive obj → hval → string.

Definition py_str `{HeapStr} (h : gmap positive obj) (v : hval) : string :=
  match v with
  | HOid o => ObjectId.str o
  | HStr s => s
  | _ => str_other h v
  end.

(** [bool(v)]. *)
Definition truthy (h : gmap positive obj) (v : hval) : option bool :=
  match v with
  | HNone => Some false
  | HBool b => Some b
  | HInt n => Some (negb (n =? 0)%Z)
  | HFloat x => Some (negb (x =? 0)%float)
  | HStr s => Some (negb (bool_decide (s = "")))
  | HOid _ => Some true
  | HRef l =>
      match h !! l with
      | Some (ODict e) => Some (negb (bool_decide (size e = 0%nat)))
      | Some (OList es) => Some (negb (bool_decide (length es = 0%nat)))
      | None => None
      end
  end.

(** [dict(doc)]: a new dictionary object holding the same entries. *)
Definition dict_copy (h : gmap positive obj) (doc : hval)
  : option (positive * gmap positive obj) :=
  match doc with
  | HRef l =>
      match h !! l with
      | Some (ODict e) =>
          let l' := fresh (dom h) in
          Some (l', <[l' := ODict e]> h)
      | _ => None
      end
  | _ => None
  end.

Definition dict_entries (h : gmap positive obj) (l : positive)
  : option (gmap string hval) :=
  match h !! l with
  | Some (ODict e) => Some e
  | _ => None
  end.

(** [d[k] = v]. *)
Definition dict_setitem (h : gmap positive obj) (l : positive) (k : string)
    (v : hval) : option (gmap positive obj) :=
  e ← dict_entries h l;
  Some (<[l := ODict (<[k := v]> e)]> h).

(** [d.pop(k)] for a key that is present. *)
Definition dict_pop (h : gmap positive obj) (l : positive) (k : string)
  : option (hval * gmap positive obj) :=
  e ← dict_entries h l;
  v ← e !! k;
  Some (v, <[l := ODict (delete k e)]> h).

(** [for k, v in d.items(): if isinstance(v, ObjectId): d[k] = str(v)],
    over the items the dictionary at [l] had when the loop started. *)
Fixpoint stringify_loop `{HeapStr} (l : positive) (items : list (string * hval))
    (h : gmap positive obj) : option (gmap positive obj) :=
  match items with
  | [] => Some h
  | (k, v) :: items' =>
      match v with
      | HOid _ =>
          h' ← dict_setitem h l k (HStr (py_str h v));
          stringify_loop l items' h'
      | _ => stringify_loop l items' h
      end
  end.

Definition serialize_doc `{HeapStr} (doc : hval) (h : gmap positive obj)
  : option (hval * gmap positive obj) :=
  t ← truthy h doc;
  if negb t then Some (doc, h)
  else
    '(d, h) ← dict_copy h doc;
    e ← dict_entries h d;
    h ← (if decide (is_Some (e !! "_id"))
         then '(v, h) ← dict_pop h d "_id";
              dict_setitem h d "id" (HStr (py_str h v))
         else Some h);
    e ← dict_entries h d;
    h ← stringify_loop d (map_to_list e) h;
    Some (HRef d, h).

(** The entries of the copy once the loop has gone through [items]. *)
Definition entries_after (items : list (string * hval)) (e : gmap string hval)
  : gmap string hval :=
  foldl (λ acc kv,
    match kv.2 with
    | HOid o => <[kv.1 := HStr (ObjectId.str o)]> acc
    | _ => acc
    end) e items.

Definition stringify (v : hval) : hval :=
  match v with
  | HOid o => HStr (ObjectId.str o)
  | _ => v
  end.

(** The entries of the copy before the loop: [_id], when present, popped
    and its string stored under [id]. *)
Definition renamed `{HeapStr} (h : gmap positive obj) (l : positive)
    (e : gmap string hval) : gmap string hval :=
  match e !! "_id" with
  | Some v =>
      <["id" := HStr
                  (py_str (<[l := ODict (delete "_id" e)]> h) v)]>
        (delete "_id" e)
  | None => e
  end.

(** [repr h hv v]: in the heap [h], the value [hv] stands for the document
    value [v], references followed. *)
Inductive repr (h : gmap positive obj) : hval → value → Prop :=
| repr_none : repr h HNone VNone
| repr_bool b : repr h (HBool b) (VBool b)
| repr_int n : repr h (HInt n) (VInt n)
| repr_float x : repr h (HFloat x) (VFloat x)
| repr_str s : repr h (HStr s) (VStr s)
| repr_oid o : repr h (HOid o) (VOid o)
| repr_list l es vs :
    h !! l = Some (OList es) →
    Forall2 (repr h) es vs →
    repr h (HRef l) (VList vs)
| repr_dict l e m :
    h !! l = Some (ODict e) →
    (∀ k, option_Forall2 (repr h) (e !! k) (m !! k)) →
    repr h (HRef l) (VDict m).

(** The argument is [None] or refers to a dictionary. *)
Definition is_doc (h : gmap positive obj) (doc : hval) : Prop :=
  doc = HNone ∨ ∃ l e, doc = HRef l ∧ h !! l = Some (ODict e).

End Heap.

(** ** Vocabulary of the statements *)

(** A product identifier resolves when it is well formed and some document
    of the product collection carries it. *)
Definition resolves (db : Database) (pid : string) : Prop :=
  ∃ o d, ObjectId.parse pid = Some o
         ∧ d ∈ collection db "product" ∧ d !! "_id" = Some (VOid o).

(** The store lookups the referential check issues for a list of items:
    one per well-formed identifier, none for a malformed one. *)
Definition item_lookups (items : list CartItem.t) : list StoreOp :=
  items ≫= λ i,
    match ObjectId.parse (CartItem.product_id i) with
    | Some o => [OpFindOne "product" {["_id" := FOid o]}]
    | None => []
    end.

(** The exception an item that does not resolve is rejected with. *)
Definition rejection (item : CartItem.t) : exc :=
  match ObjectId.parse (CartItem.product_id item) with
  | None => HTTPException 400 ("Invalid product id: " +:+ CartItem.product_id item)
  | Some _ => HTTPException 400 ("Product not found: " +:+ CartItem.product_id item)
  end.

(** Identifiers the store generated so far lie below its counter. *)
Definition id_below (n : N) (d : gmap string value) : Prop :=
  match d !! "_id" with
  | Some (VOid o) => (o < n)%N
  | _ => True
  end.

#[global] Instance id_below_dec n d : Decision (id_below n d).
Proof. unfold id_below. destruct (d !! "_id") as [[]|]; apply _. Defined.

Definition fresh_ids (db : Database) : Prop :=
  map_Forall (λ _ docs, Forall (id_below (next_oid db)) docs) (collections db).

(** The number of documents of a collection, as [count_documents({})]
    reports it. *)
Definition count_of (w : option Database) (name : string) : nat :=
  match w with
  | Some db => length (collection db name)
  | None => 0
  end.

(** The [featured] field of a stored document holds the boolean [b]. *)
Definition featured_is (b : bool) (d : gmap string value) : bool :=
  field_matches d "featured" (FBool b).

(** A document as [list_products] returns it. *)
Definition rendered `{PyStr} (d : gmap string value) : value :=
  to_json (serialize_doc (Some d)).

(** The store after [insert_one]. *)
Definition inserted (db : Database) (name : string) (m : gmap string value)
  : Database :=
  {| collections :=
       <[name := collection db name ++ [<["_id" := VOid (next_oid db)]> m]]>
         (collections db);
     next_oid := N.succ (next_oid db) |}.

(** The store after the products [ps] were inserted one after the other. *)
Fixpoint insert_all (db : Database) (ps : list Product.t) : Database :=
  match ps with
  | [] => db
  | p :: ps' => insert_all (inserted db "product" (model_dump p)) ps'
  end.

(** The documents the products [ps] are filed as when the store's counter
    stands at [n], and the identifiers handed back for them. *)
Fixpoint filed (n : ObjectId.t) (ps : list Product.t)
  : list (gmap string value) :=
  match ps with
  | [] => []
  | p :: ps' => <["_id" := VOid n]> (model_dump p) :: filed (N.succ n) ps'
  end.

Fixpoint issued (n : ObjectId.t) (ps : list Product.t) : list string :=
  match ps with
  | [] => []
  | _ :: ps' => ObjectId.str n :: issued (N.succ n) ps'
  end.

(** A document with native identifiers below the top level: an order whose
    items refer to products by identifier. *)
Definition order_with_refs : gmap string value :=
  list_to_map [
    ("_id", VOid 1%N);
    ("items", VList [VDict {["product_id" := VOid 2%N]}])
  ].

(** The [category] field of a stored document holds the string [c]. *)
Definition category_is (c : string) (d : gmap string value) : bool :=
  field_matches d "category" (FStr c).

(** A product is listed under a category filter that is absent, empty or
    its own category, and under a featured filter that is absent or its own
    flag. *)
Definition listed_under (category : option string) (featured : option bool)
    (p : Product.t) : bool :=
  match category with
  | Some c => bool_decide (c = "" ∨ Product.category p = c)
  | None => true
  end
  && match featured with
     | Some b => bool_decide (Product.featured p = b)
     | None => true
     end.

(** ** The routes

    A request is one of the five routes with its parameters; the two POST
    routes with a body go through validation.  A server takes requests one
    after the other, and a request that raises leaves the store as the
    handler left it. *)
Inductive request :=
| ListProducts (category : option string) (featured : option bool)
| GetProduct (product_id : string)
| CreateProduct (body : Product.t)
| CreateOrder (body : Order.t)
| SeedProducts.

Definition handle `{PyStr} `{EmailSyntax} (r : request) : M value :=
  match r with
  | ListProducts category featured => list_products category featured
  | GetProduct product_id => get_product product_id
  | CreateProduct body => post_products body
  | CreateOrder body => post_orders body
  | SeedProducts => seed_products
  end.

Fixpoint serve `{PyStr} `{EmailSyntax} (rs : list request)
    (w : option Database) : option Database :=
  match rs with
  | [] => w
  | r :: rs' => serve rs' (final (handle r w))
  end.

(** Every document of the list carries a store identifier below [n]. *)
Definition has_ids (n : N) (docs : list (gmap string value)) : Prop :=
  Forall (λ d, ∃ o, d !! "_id" = Some (VOid o) ∧ (o < n)%N) docs.

(** No two documents of the list carry the same [_id]. *)
Definition unique_ids (docs : list (gmap string value)) : Prop :=
  ∀ i j d1 d2,
    docs !! i = Some d1 → docs !! j = Some d2 →
    d1 !! "_id" = d2 !! "_id" → i = j.

Definition well_kept (db : Database) : Prop :=
  ∀ name,
    has_ids (next_oid db) (collection db name)
    ∧ unique_ids (collection db name).

(** ** The diagnostic route ([test_database])

    The text of an exception is a sequence of code points, which is what
    Python slices; [encode] writes such text out as a string. *)
Class TextEncoding := encode : list N → string.

(** What [test_database] asks of the module-level [db]: its [name] and
    [list_collection_names()].  [inl msg] is an exception whose [str] is
    [msg]. *)
Module Connection.

Record t := {
  name : list N + string;
  list_collection_names : list N + list string;
}.

End Connection.

(** [os.getenv("DATABASE_URL")] as a condition: unset and empty are falsy. *)
Definition env_set (v : option string) : bool :=
  match v with
  | Some s => negb (bool_decide (s = ""))
  | None => false
  end.

Definition test_database `{TextEncoding} (database_url : option string)
    (db : option Connection.t) : gmap string value :=
  let response : gmap string value :=
    list_to_map [
      ("backend", VStr "✅ Running");
      ("database", VStr "❌ Not Available");
      ("database_url", VNone);
      ("database_name", VNone);
      ("connection_status", VStr "Not Connected");
      ("collections", VList [])
    ] in
  match db with
  | Some conn =>
      let response := <["database" := VStr "✅ Available"]> response in
      let response :=
        <["database_url" :=
            VStr (if env_set database_url then "✅ Set" else "❌ Not Set")]>
          response in
      match Connection.name conn with
      | inr n =>
          let response := <["database_name" := VStr n]> response in
          let response := <["connection_status" := VStr "Connected"]> response in
          match Connection.list_collection_names conn with
          | inr collections =>
              let response :=
                <["collections" := VList (VStr <$> take 10 collections)]>
                  response in
              <["database" := VStr "✅ Connected & Working"]> response
          | inl e =>
              <["database" :=
                  VStr ("⚠️  Connected but Error: " +:+ encode (take 50 e))]>
                response
          end
      | inl e =>
          <["database" := VStr ("❌ Error: " +:+ encode (take 50 e))]> response
      end
  | None =>
      <["database" := VStr "⚠️  Available but not initialized"]> response
  end.

(** ** Fixtures for the examples *)

Definition plain_str : PyStr := λ _, "<object>".

Definition heap_plain_str : Heap.HeapStr := λ _ _, "<object>".

(** An address is taken to be valid when it contains an at sign. *)
Definition at_sign_email : EmailSyntax :=
  λ s, bool_decide ("@"%char ∈ Stdlib.Strings.String.list_ascii_of_string s).

Definition empty_db : Database := {| collections := ∅; next_oid := 0%N |}.

(** The store after the first seeding of [empty_db]. *)
Definition seeded_db : Database := insert_all empty_db SAMPLE_PRODUCTS.

Definition a_customer : CustomerInfo.t :=
  {| CustomerInfo.name := "Ada";
     CustomerInfo.email := "ada@example.org";
     CustomerInfo.address := "1 Main Street";
     CustomerInfo.city := "Leeds";
     CustomerInfo.country := "UK";
     CustomerInfo.postal_code := "LS1" |}.

Definition item_of (pid : string) (quantity : Z) : CartItem.t :=
  {| CartItem.product_id := pid;
     CartItem.quantity := quantity;
     CartItem.size := Some "M";
     CartItem.color := None |}.

Definition order_of (items : list CartItem.t) : Order.t :=
  {| Order.items := items;
     Order.subtotal := 28%float;
     Order.shipping := 4%float;
     Order.total := 32%float;
     Order.currency := "USD";
     Order.status := "pending";
     Order.customer := a_customer |}.

(** The first item is the seeded tee, the second is no identifier, the
    third is well formed and unknown. *)
Definition mixed_items : list CartItem.t := [
  item_of "000000000000000000000000" 1;
  item_of "not-an-id" 2;
  item_of "0000000000000000000000ff" 1
].

Definition a_cap : Product.t :=
  {| Product.title := "Vistro Cap";
     Product.description := None;
     Product.price := 19%float;
     Product.category := "Accessories";
     Product.images := [];
     Product.brand := "Vistro";
     Product.tags := ["cap"];
     Product.variants :=
       [{| ProductVariant.size := None;
           ProductVariant.color := Some "Navy";
           ProductVariant.sku := Some "VT-CAP-NVY";
           ProductVariant.stock := 12 |}];
     Product.featured := false |}.


(** A document at location 1 whose [items] is the list at location 2. *)
Definition two_objects : gmap positive Heap.obj :=
  <[1%positive := Heap.ODict (<["_id" := Heap.HOid 7%N]>
                               {["items" := Heap.HRef 2%positive]})]>
    {[2%positive := Heap.OList [Heap.HOid 9%N]]}.

(** The document that location 1 of [two_objects] stands for. *)
Definition two_objects_doc : gmap string value :=
  <["_id" := VOid 7%N]> {["items" := VList [VOid 9%N]]}.

(** Code points below 256 written as single characters. *)
Definition latin1 : TextEncoding :=
  λ cps, Stdlib.Strings.String.string_of_list_ascii (ascii_of_N <$> cps).

(** A connection whose listing of collections fails with "timeout". *)
Definition stalled : Connection.t :=
  {| Connection.name := inr "vistro";
     Connection.list_collection_names := inl [116; 105; 109; 101; 111; 117; 116]%N |}.

(** [order_with_refs], serialized. *)
Definition order_with_refs_shown : gmap string value :=
  list_to_map [
    ("id", VStr "000000000000000000000001");
    ("items", VList [VDict {["product_id" := VOid 2%N]}])
  ].

(** * Facts *)

Arguments ObjectId.str : simpl never.
Arguments ObjectId.parse : simpl never.

(** ** Identifiers *)

Lemma hex_val_digit n :
  (n < 16)%N → ObjectId.hex_val (ObjectId.hex_digit n) = Some n.
Proof.
  intros Hn. rewrite <- (N2Nat.id n) in *.
  assert (Hm : (N.to_nat n < 16)%nat) by lia.
  revert Hm. generalize (N.to_nat n) as m. intros m Hm.
  do 16 (destruct m as [|m]; [reflexivity|]). lia.
Qed.

Lemma of_hex_app s1 s2 acc :
  ObjectId.of_hex (s1 +:+ s2) acc =
  match ObjectId.of_hex s1 acc with
  | Some a => ObjectId.of_hex s2 a
  | None => None
  end.
Proof.
  revert acc. induction s1 as [|c s1 IH]; intros acc; simpl; [done|].
  destruct (ObjectId.hex_val c); [apply IH|done].
Qed.

Lemma string_length_app s1 s2 :
  String.length (s1 +:+ s2) = (String.length s1 + String.length s2)%nat.
Proof. induction s1 as [|c s1 IH]; simpl; [done|]. by rewrite IH. Qed.

Lemma length_to_hex k n : String.length (ObjectId.to_hex k n) = k.
Proof.
  revert n. induction k as [|k IH]; intros n; simpl; [done|].
  rewrite string_length_app, IH. simpl. lia.
Qed.

Lemma of_hex_to_hex k n :
  ObjectId.of_hex (ObjectId.to_hex k n) 0 = Some (n mod 16 ^ N.of_nat k)%N.
Proof.
  revert n. induction k as [|k IH]; intros n.
  - simpl. by rewrite N.mod_1_r.
  - cbn [ObjectId.to_hex]. rewrite of_hex_app, IH. cbn [ObjectId.of_hex].
    rewrite hex_val_digit by (apply N.mod_lt; lia).
    f_equal. rewrite Nat2N.inj_succ, N.pow_succ_r by lia.
    rewrite (N.Div0.mod_mul_r n 16 (16 ^ N.of_nat k)). lia.
Qed.

(** Printing an identifier and constructing it again is the identity. *)
Lemma ObjectId_parse_str o :
  (o < ObjectId.bound)%N → ObjectId.parse (ObjectId.str o) = Some o.
Proof.
  intros Ho. unfold ObjectId.parse, ObjectId.str. rewrite length_to_hex.
  rewrite decide_True by done. rewrite of_hex_to_hex.
  f_equal. apply N.mod_small. exact Ho.
Qed.

(** ** Store lookups *)

Lemma matches_empty d : matches ∅ d = true.
Proof. unfold matches. apply bool_decide_eq_true. apply map_Forall_empty. Qed.

Lemma matches_singleton k f d : matches {[k := f]} d = field_matches d k f.
Proof.
  unfold matches. destruct (field_matches d k f) eqn:E.
  - apply bool_decide_eq_true. by apply map_Forall_singleton.
  - apply bool_decide_eq_false. rewrite map_Forall_singleton. congruence.
Qed.

Lemma field_matches_oid d o :
  field_matches d "_id" (FOid o) = true ↔ d !! "_id" = Some (VOid o).
Proof.
  unfold field_matches. destruct (d !! "_id") as [[]|]; simpl;
    rewrite ?bool_decide_eq_true; split; intros; simplify_eq; done.
Qed.

Lemma matches_id d o :
  matches {["_id" := FOid o]} d ↔ d !! "_id" = Some (VOid o).
Proof. rewrite matches_singleton, Is_true_true. apply field_matches_oid. Qed.

Lemma filter_matches_empty (docs : list (gmap string value)) :
  filter (λ d, matches ∅ d) docs = docs.
Proof.
  induction docs as [|d docs IH]; [done|].
  rewrite filter_cons_True by (by rewrite matches_empty). by rewrite IH.
Qed.

(** A lookup by identifier finds nothing exactly when no document of the
    collection carries the identifier. *)
Lemma find_id_None (docs : list (gmap string value)) o :
  head (filter (λ d, matches {["_id" := FOid o]} d) docs) = None
  ↔ ∀ d, d ∈ docs → d !! "_id" ≠ Some (VOid o).
Proof.
  rewrite head_None. split.
  - intros Hnil d Hd Hid.
    eapply filter_nil_not_elem_of; [exact Hnil| |exact Hd].
    by apply matches_id.
  - intros Hno. induction docs as [|d docs IH]; [done|].
    rewrite filter_cons_False.
    + apply IH. intros d' Hd'. apply Hno. by right.
    + rewrite matches_id. apply Hno. by left.
Qed.

(** What a lookup by identifier finds carries the identifier, so it is
    never an empty dictionary. *)
Lemma find_id_Some (docs : list (gmap string value)) o d :
  head (filter (λ d, matches {["_id" := FOid o]} d) docs) = Some d →
  d ∈ docs ∧ d !! "_id" = Some (VOid o) ∧ falsy_doc (Some d) = false.
Proof.
  intros Hhd. apply head_Some_elem_of in Hhd.
  apply list_elem_of_filter in Hhd as [Hm Hd].
  rewrite matches_id in Hm. split_and!; [done..|].
  simpl. apply bool_decide_eq_false. intros Hsz.
  apply map_size_empty_iff in Hsz. by rewrite Hsz in Hm.
Qed.

Lemma falsy_find_id (docs : list (gmap string value)) o :
  falsy_doc (head (filter (λ d, matches {["_id" := FOid o]} d) docs)) = true
  ↔ ∀ d, d ∈ docs → d !! "_id" ≠ Some (VOid o).
Proof.
  rewrite <- find_id_None.
  destruct (head _) as [d|] eqn:E; [|done].
  apply find_id_Some in E as (_ & _ & ->). split; done.
Qed.

Lemma not_resolves db pid o :
  ObjectId.parse pid = Some o →
  ¬ resolves db pid ↔
  falsy_doc (head (filter (λ d, matches {["_id" := FOid o]} d)
                     (collection db "product"))) = true.
Proof.
  intros Hp. rewrite falsy_find_id. unfold resolves. split.
  - intros Hno d Hd Hid. apply Hno. by exists o, d.
  - intros Hno (o' & d & Hp' & Hd & Hid). simplify_eq. by eapply Hno.
Qed.

(** ** Running the handlers *)

Ltac run :=
  unfold mbind, M_bind, bind, try_except, ObjectId_new, check_db, ret, raise;
  cbn [result final ops].

Lemma bind_run {A B} (m : M A) (k : A → M B) w :
  (m ≫= k) w =
  match result (m w) with
  | inl e => MkOutcome (inl e) (final (m w)) (ops (m w))
  | inr a =>
      MkOutcome (result (k a (final (m w)))) (final (k a (final (m w))))
        (ops (m w) ++ ops (k a (final (m w))))
  end.
Proof. reflexivity. Qed.

Lemma for_each_cons {A} (x : A) l body w :
  for_each (x :: l) body w = (body x ≫= λ _, for_each l body) w.
Proof. reflexivity. Qed.

Lemma item_lookups_cons i items :
  item_lookups (i :: items) = item_lookups [i] ++ item_lookups items.
Proof. unfold item_lookups. rewrite !bind_cons. simpl. by rewrite app_nil_r. Qed.

Lemma item_lookups_app l1 l2 :
  item_lookups (l1 ++ l2) = item_lookups l1 ++ item_lookups l2.
Proof. unfold item_lookups. apply bind_app. Qed.

Lemma item_lookups_read items :
  Forall (λ op, is_write op = false) (item_lookups items).
Proof.
  induction items as [|i items IH]; [constructor|].
  rewrite item_lookups_cons. apply Forall_app. split; [|exact IH].
  unfold item_lookups. rewrite bind_cons. simpl.
  destruct (ObjectId.parse _); repeat constructor.
Qed.

#[global] Instance resolves_dec db pid : Decision (resolves db pid).
Proof.
  destruct (ObjectId.parse pid) as [o|] eqn:Hp.
  - destruct (falsy_doc (head (filter (λ d, matches {["_id" := FOid o]} d)
                                 (collection db "product")))) eqn:E.
    + right. by apply (not_resolves db pid o).
    + left. destruct (head _) as [d|] eqn:Hd; [|done].
      apply find_id_Some in Hd as (Hd & Hid & _). by exists o, d.
  - right. intros (o & d & Hp' & _). congruence.
Defined.

Lemma first_failure {A} (P : A → Prop) `{!∀ x, Decision (P x)} (l : list A) :
  (∃ x, x ∈ l ∧ ¬ P x) →
  ∃ pre bad post, l = pre ++ bad :: post ∧ Forall P pre ∧ ¬ P bad.
Proof.
  induction l as [|a l IH]; intros (x & Hx & Hn).
  - by apply elem_of_nil in Hx.
  - destruct (decide (P a)) as [Ha|Ha].
    + destruct IH as (pre & bad & post & -> & Hpre & Hbad).
      { apply elem_of_cons in Hx as [->|Hx]; [done|]. by exists x. }
      exists (a :: pre), bad, post. split_and!; [done| |done].
      by constructor.
    + exists [], a, l. split_and!; [done|constructor|done].
Qed.

Section Orders.
Context `{PyStr}.

(** An item that resolves costs one lookup and lets the loop go on. *)
Lemma check_item_ok db item :
  resolves db (CartItem.product_id item) →
  check_item item (Some db) = MkOutcome (inr ()) (Some db) (item_lookups [item]).
Proof.
  intros Hres.
  destruct (ObjectId.parse (CartItem.product_id item)) as [o|] eqn:Hp.
  - assert (Hf : falsy_doc (head (filter (λ d, matches {["_id" := FOid o]} d)
                     (collection db "product"))) = false).
    { apply not_true_is_false. intros Hf.
      by apply (not_resolves db _ o Hp) in Hf. }
    unfold check_item, item_lookups. rewrite bind_cons. run.
    rewrite Hp. cbn. rewrite Hf. reflexivity.
  - destruct Hres as (o & d & Hp' & _). congruence.
Qed.

(** An item that does not resolve raises its rejection: at once when the
    identifier is malformed, after one lookup otherwise. *)
Lemma check_item_bad db item :
  ¬ resolves db (CartItem.product_id item) →
  check_item item (Some db) =
    MkOutcome (inl (rejection item)) (Some db) (item_lookups [item]).
Proof.
  intros Hres. unfold check_item, item_lookups, rejection.
  rewrite bind_cons. run.
  destruct (ObjectId.parse (CartItem.product_id item)) as [o|] eqn:Hp.
  - apply (not_resolves db _ o Hp) in Hres. cbn. rewrite Hres. reflexivity.
  - reflexivity.
Qed.

Lemma for_each_accept db items :
  Forall (λ i, resolves db (CartItem.product_id i)) items →
  for_each items check_item (Some db) =
    MkOutcome (inr ()) (Some db) (item_lookups items).
Proof.
  induction 1 as [|i items Hi _ IH]; [reflexivity|].
  rewrite for_each_cons, bind_run, check_item_ok by done.
  cbn [result final ops]. rewrite IH. cbn [result final ops].
  by rewrite (item_lookups_cons i items).
Qed.

(** The loop stops at the first item that does not resolve: the items after
    it play no part in the outcome. *)
Lemma for_each_reject db pre bad post :
  Forall (λ i, resolves db (CartItem.product_id i)) pre →
  ¬ resolves db (CartItem.product_id bad) →
  for_each (pre ++ bad :: post) check_item (Some db) =
    MkOutcome (inl (rejection bad)) (Some db) (item_lookups (pre ++ [bad])).
Proof.
  intros Hpre Hbad. induction Hpre as [|i pre Hi _ IH].
  - cbn [app]. rewrite for_each_cons, bind_run, check_item_bad by done.
    reflexivity.
  - cbn [app]. rewrite for_each_cons, bind_run, check_item_ok by done.
    cbn [result final ops]. rewrite IH. cbn [result final ops].
    by rewrite (item_lookups_cons i (pre ++ [bad])).
Qed.


(** C2: when some item of the order carries a product_id that is malformed
    or resolves to no product of the store, order creation fails (status
    400), the store it leaves is the store it found, so the product and the
    order collection hold what they held, and no write was issued. *)
Theorem create_order_atomic_rejection db order :
  (∃ item, item ∈ Order.items order
           ∧ ¬ resolves db (CartItem.product_id item)) →
  let r := create_order order (Some db) in
  (∃ detail, result r = inl (HTTPException 400 detail))
  ∧ final r = Some db
  ∧ count_of (final r) "product" = count_of (Some db) "product"
  ∧ count_of (final r) "order" = count_of (Some db) "order"
  ∧ Forall (λ op, is_write op = false) (ops r).
Proof.
  intros Hbad.
  apply (first_failure (λ i, resolves db (CartItem.product_id i))) in Hbad
    as (pre & bad & post & Hitems & Hpre & Hbad).
  assert (Hrun : create_order order (Some db) =
    MkOutcome (inl (rejection bad)) (Some db) (item_lookups (pre ++ [bad]))).
  { unfold create_order. rewrite bind_run. cbn [check_db ret result final ops].
    rewrite bind_run, Hitems, for_each_reject by done. reflexivity. }
  cbv zeta. rewrite Hrun. cbn [result final ops]. split_and!; try done.
  - unfold rejection. destruct (ObjectId.parse _); eauto.
  - apply item_lookups_read.
Qed.

End Orders.

Section Products.
Context `{PyStr}.

(** Without a configured store every handler answers 500 and does nothing. *)
Lemma unconfigured_store :
  let down {A} : Outcome A :=
    MkOutcome (inl (HTTPException 500 "Database not configured")) None [] in
  (∀ c f, list_products c f None = down)
  ∧ (∀ pid, get_product pid None = down)
  ∧ (∀ p, create_product p None = down)
  ∧ (∀ o, create_order o None = down)
  ∧ seed_products None = down.
Proof. by split_and!. Qed.


(** Fetching by the identifier of a stored document returns the first such
    document, serialized. *)
Lemma get_product_found db pid o d :
  ObjectId.parse pid = Some o →
  head (filter (λ d, matches {["_id" := FOid o]} d) (collection db "product"))
    = Some d →
  get_product pid (Some db) =
    MkOutcome (inr (rendered d)) (Some db)
      [OpFindOne "product" {["_id" := FOid o]}].
Proof.
  intros Hp Hd. pose proof (find_id_Some _ _ _ Hd) as (_ & _ & Hf).
  unfold get_product. run. cbn. rewrite Hp. cbn. rewrite Hd, Hf. reflexivity.
Qed.

Lemma featured_is_spec b d :
  featured_is b d = true ↔ d !! "featured" = Some (VBool b).
Proof.
  unfold featured_is, field_matches. destruct (d !! "featured") as [[]|]; simpl;
    rewrite ?bool_decide_eq_true; split; intros; simplify_eq; done.
Qed.

(** The listing asks the store once, with the query built from the two
    parameters, and serializes what comes back. *)
Lemma list_products_run db category featured :
  list_products category featured (Some db) =
    MkOutcome
      (inr (VList (rendered <$>
         filter (λ d, matches (build_query category featured) d)
           (collection db "product"))))
      (Some db) [OpFind "product" (build_query category featured)].
Proof. reflexivity. Qed.

(** C8: with a configured store, listing with featured=true (and no
    category) returns, serialized, exactly the documents of the product
    collection whose [featured] field is [True], and listing with no filter
    returns every document of the collection. *)
Theorem list_products_filters db :
  list_products None (Some true) (Some db) =
    MkOutcome
      (inr (VList (rendered <$>
         filter (λ d, featured_is true d) (collection db "product"))))
      (Some db) [OpFind "product" {["featured" := FBool true]}]
  ∧ list_products None None (Some db) =
      MkOutcome (inr (VList (rendered <$> collection db "product")))
        (Some db) [OpFind "product" ∅].
Proof.
  rewrite !list_products_run. split.
  - do 4 f_equal. apply list_filter_iff. intros d.
    change (build_query None (Some true))
      with ({["featured" := FBool true]} : gmap string fval).
    by rewrite matches_singleton.
  - change (build_query None None) with (∅ : gmap string fval).
    by rewrite filter_matches_empty.
Qed.

(** C10: an empty category string gives the very request that no category
    gives, for either value of [featured] and also for none, so all
    categories are listed; featured=false on the other hand reaches the
    store as a filter, and only the documents whose [featured] field is
    [False] come back. *)
Theorem empty_category_is_no_filter :
  (∀ featured w,
     list_products (Some "") featured w = list_products None featured w)
  ∧ (∀ db,
     list_products (Some "") None (Some db) =
       MkOutcome (inr (VList (rendered <$> collection db "product")))
         (Some db) [OpFind "product" ∅])
  ∧ (∀ db,
     list_products None (Some false) (Some db) =
       MkOutcome
         (inr (VList (rendered <$>
            filter (λ d, featured_is false d) (collection db "product"))))
         (Some db) [OpFind "product" {["featured" := FBool false]}]).
Proof.
  split_and!.
  - intros featured w. reflexivity.
  - intros db. rewrite list_products_run.
    change (build_query (Some "") None) with (∅ : gmap string fval).
    by rewrite filter_matches_empty.
  - intros db. rewrite list_products_run. do 4 f_equal.
    apply list_filter_iff. intros d.
    change (build_query None (Some false))
      with ({["featured" := FBool false]} : gmap string fval).
    by rewrite matches_singleton.
Qed.

End Products.

(** ** Serialization *)

Lemma stringify_not_oid v o : stringify v ≠ VOid o.
Proof. by destruct v. Qed.

(** What [serialize_doc] does guarantee, at the top level of a non-empty
    document: the [_id] key is gone, [id] holds the string of what [_id]
    held, and no value directly under a key is a native identifier. *)
Lemma serialize_doc_top_level `{PyStr} (m d : gmap string value) :
  size m ≠ 0%nat →
  serialize_doc (Some m) = Some d →
  d !! "_id" = None
  ∧ (∀ v, m !! "_id" = Some v → d !! "id" = Some (VStr (py_str v)))
  ∧ (∀ k v o, d !! k = Some v → v ≠ VOid o).
Proof.
  intros Hsz Hd. unfold serialize_doc in Hd. rewrite decide_False in Hd by done.
  injection Hd as <-. split_and!.
  - rewrite lookup_fmap. destruct (m !! "_id") as [v|] eqn:E.
    + rewrite lookup_insert_ne by done. by rewrite lookup_delete_eq.
    + by rewrite E.
  - intros v ->. rewrite lookup_fmap, lookup_insert_eq. done.
  - intros k v o Hk ->. rewrite lookup_fmap in Hk.
    destruct (_ !! k) as [v'|]; simplify_eq/=.
    by eapply stringify_not_oid.
Qed.

Lemma stringify_dump_opt o : stringify (dump_opt o) = dump_opt o.
Proof. by destruct o. Qed.

(** A dumped model holds no native identifier directly under a key, and
    neither an [_id] nor an [id]. *)
Lemma Product_dump_plain p :
  stringify <$> Product.dump p = Product.dump p
  ∧ Product.dump p !! "_id" = None
  ∧ Product.dump p !! "id" = None.
Proof.
  split_and!.
  - unfold Product.dump. cbn [list_to_map foldr fst snd uncurry].
    rewrite !fmap_insert, fmap_empty, stringify_dump_opt. reflexivity.
  - by vm_compute.
  - by vm_compute.
Qed.

(** A stored model, serialized: the dump with [id] added. *)
Lemma serialize_stored `{PyStr} (m : gmap string value) o :
  stringify <$> m = m →
  m !! "_id" = None →
  serialize_doc (Some (<["_id" := VOid o]> m))
  = Some (<["id" := VStr (ObjectId.str o)]> m).
Proof.
  intros Hplain Hid. unfold serialize_doc.
  rewrite decide_False
    by (rewrite map_size_non_empty_iff; apply insert_non_empty).
  rewrite lookup_insert_eq, delete_insert_eq, delete_id by done.
  rewrite fmap_insert, Hplain. reflexivity.
Qed.

(** ** Inserting and finding again *)

Lemma collection_fresh db name :
  fresh_ids db → Forall (id_below (next_oid db)) (collection db name).
Proof.
  intros Hf. unfold collection.
  destruct (collections db !! name) as [docs|] eqn:E; [|constructor].
  exact (Hf name docs E).
Qed.

(** A fresh identifier is found at the document just appended. *)
Lemma find_appended (docs : list (gmap string value)) m o :
  Forall (id_below o) docs →
  head (filter (λ d, matches {["_id" := FOid o]} d)
          (docs ++ [<["_id" := VOid o]> m]))
  = Some (<["_id" := VOid o]> m).
Proof.
  intros Hb. rewrite filter_app.
  assert (Hnone : filter (λ d, matches {["_id" := FOid o]} d) docs = []).
  { apply head_None, find_id_None. intros d Hd Hid.
    rewrite Forall_forall in Hb. specialize (Hb d Hd).
    unfold id_below in Hb. rewrite Hid in Hb. lia. }
  rewrite Hnone. cbn [app].
  rewrite filter_cons_True by (rewrite matches_id; apply lookup_insert_eq).
  reflexivity.
Qed.

Lemma collection_inserted db name m :
  collection (inserted db name m) name
  = collection db name ++ [<["_id" := VOid (next_oid db)]> m].
Proof. unfold collection at 1. cbn. by rewrite lookup_insert_eq. Qed.

Lemma collection_inserted_ne db name name' m :
  name ≠ name' → collection (inserted db name m) name' = collection db name'.
Proof. intros Hne. unfold collection. cbn. by rewrite lookup_insert_ne. Qed.

(** Inserting keeps the identifiers below the counter. *)
Lemma inserted_fresh db name m :
  fresh_ids db → fresh_ids (inserted db name m).
Proof.
  intros Hf. unfold fresh_ids, inserted. cbn.
  apply map_Forall_insert_2.
  - apply Forall_app. split.
    + eapply Forall_impl; [by apply collection_fresh|].
      intros d. unfold id_below. destruct (d !! "_id") as [[]|]; try done. lia.
    + constructor; [|constructor]. unfold id_below.
      rewrite lookup_insert_eq. lia.
  - eapply map_Forall_impl; [exact Hf|]. intros k docs Hd. cbn in Hd.
    eapply Forall_impl; [exact Hd|].
    intros d. unfold id_below. destruct (d !! "_id") as [[]|]; try done. lia.
Qed.

Lemma create_document_run `{BaseModel A} db name (data : A) :
  create_document name data (Some db) =
    MkOutcome (inr (ObjectId.str (next_oid db)))
      (Some (inserted db name (model_dump data)))
      [OpInsert name (<["_id" := VOid (next_oid db)]> (model_dump data))].
Proof. reflexivity. Qed.

(** ** Creating and fetching products *)

Section Creation.
Context `{PyStr}.

Lemma create_product_run db p :
  fresh_ids db → (next_oid db < ObjectId.bound)%N →
  create_product p (Some db) =
    MkOutcome
      (inr (VDict (<["id" := VStr (ObjectId.str (next_oid db))]> (model_dump p))))
      (Some (inserted db "product" (model_dump p)))
      [OpInsert "product" (<["_id" := VOid (next_oid db)]> (model_dump p));
       OpFindOne "product" {["_id" := FOid (next_oid db)]}].
Proof.
  intros Hf Hb. unfold create_product.
  rewrite bind_run. cbn [check_db ret result final ops].
  rewrite bind_run, create_document_run. cbn [result final ops].
  rewrite bind_run. unfold ObjectId_new. rewrite ObjectId_parse_str by done.
  cbn [ret result final ops].
  rewrite bind_run. unfold find_one. cbn [result final ops].
  rewrite collection_inserted, find_appended by (by apply collection_fresh).
  cbn [ret result final ops app to_json].
  destruct (Product_dump_plain p) as (Hplain & Hid & _).
  unfold model_dump, Product_model.
  rewrite serialize_stored by done. reflexivity.
Qed.

(** C3: on a store whose generated identifiers lie below its counter, and
    whose counter is still a twelve-byte identifier, creating a product [p]
    returns its dump with the one added field [id], and fetching that id
    afterwards returns the same document: every field of [p], equal, and
    [id], which [p] itself does not have. *)
Theorem create_then_get db p :
  fresh_ids db → (next_oid db < ObjectId.bound)%N →
  let new_id := ObjectId.str (next_oid db) in
  let shown := VDict (<["id" := VStr new_id]> (model_dump p)) in
  let created := create_product p (Some db) in
  result created = inr shown
  ∧ result (get_product new_id (final created)) = inr shown
  ∧ model_dump p !! "id" = None.
Proof.
  intros Hf Hb new_id shown created.
  assert (Hrun := create_product_run db p Hf Hb). fold created in Hrun.
  rewrite Hrun. cbn [result final]. split_and!.
  - reflexivity.
  - unfold new_id.
    erewrite get_product_found;
      [|by apply ObjectId_parse_str
       |rewrite collection_inserted;
        apply find_appended, collection_fresh, Hf].
    cbn [result]. unfold rendered, model_dump, Product_model.
    destruct (Product_dump_plain p) as (Hplain & Hid & _).
    rewrite serialize_stored by done. reflexivity.
  - apply Product_dump_plain.
Qed.

End Creation.

(** ** Seeding *)

Lemma seed_loop_run ps acc db :
  seed_loop ps acc (Some db) =
    MkOutcome (inr (acc ++ issued (next_oid db) ps))
      (Some (insert_all db ps))
      (OpInsert "product" <$> filed (next_oid db) ps).
Proof.
  revert acc db. induction ps as [|p ps IH]; intros acc db.
  - cbn. by rewrite app_nil_r.
  - cbn [seed_loop]. rewrite bind_run, create_document_run.
    cbn [result final ops]. rewrite IH. cbn [result final ops].
    cbn [issued filed insert_all inserted next_oid fmap list_fmap app].
    by rewrite <- app_assoc.
Qed.

Lemma collection_insert_all db ps :
  collection (insert_all db ps) "product"
  = collection db "product" ++ filed (next_oid db) ps.
Proof.
  revert db. induction ps as [|p ps IH]; intros db; cbn [insert_all filed].
  - by rewrite app_nil_r.
  - rewrite IH, collection_inserted. cbn [inserted next_oid].
    by rewrite <- app_assoc.
Qed.

Lemma collection_insert_all_ne db ps name :
  name ≠ "product" → collection (insert_all db ps) name = collection db name.
Proof.
  intros Hne. revert db. induction ps as [|p ps IH]; intros db; [done|].
  cbn [insert_all]. rewrite IH. by apply collection_inserted_ne.
Qed.

Lemma seed_products_fresh db :
  collection db "product" = [] →
  seed_products (Some db) =
    MkOutcome
      (inr (VDict (list_to_map [
         ("message", VStr "Seeded sample products");
         ("inserted", VList (VStr <$> issued (next_oid db) SAMPLE_PRODUCTS))])))
      (Some (insert_all db SAMPLE_PRODUCTS))
      (OpCount "product" ∅
         :: (OpInsert "product" <$> filed (next_oid db) SAMPLE_PRODUCTS)).
Proof.
  intros Hempty. unfold seed_products.
  rewrite bind_run. cbn [check_db ret result final ops].
  rewrite bind_run. unfold count_documents. cbn [result final ops].
  rewrite filter_matches_empty, Hempty. cbn [length].
  rewrite decide_False by lia.
  rewrite bind_run, seed_loop_run. reflexivity.
Qed.

Lemma seed_products_again db :
  collection db "product" ≠ [] →
  seed_products (Some db) =
    MkOutcome
      (inr (VDict (list_to_map [
         ("message", VStr "Products already seeded");
         ("count", VInt (Z.of_nat (length (collection db "product"))))])))
      (Some db) [OpCount "product" ∅].
Proof.
  intros Hne. unfold seed_products.
  rewrite bind_run. cbn [check_db ret result final ops].
  rewrite bind_run. unfold count_documents. cbn [result final ops].
  rewrite filter_matches_empty.
  rewrite decide_True by (destruct (collection db "product"); [done|cbn; lia]).
  reflexivity.
Qed.

(** C7: against an empty product collection the seed call inserts the
    three sample products, in order, and returns the identifiers of the
    three documents it wrote; against a product collection that is not
    empty it returns the "already seeded" message with the number of
    documents there and leaves the store as it was, after a single count;
    and so the call that follows a first seeding reports three products and
    inserts nothing. *)
Theorem seed_products_idempotent db :
  (collection db "product" = [] →
   seed_products (Some db) =
     MkOutcome
       (inr (VDict (list_to_map [
          ("message", VStr "Seeded sample products");
          ("inserted", VList (VStr <$> issued (next_oid db) SAMPLE_PRODUCTS))])))
       (Some (insert_all db SAMPLE_PRODUCTS))
       (OpCount "product" ∅
          :: (OpInsert "product" <$> filed (next_oid db) SAMPLE_PRODUCTS))
   ∧ collection (insert_all db SAMPLE_PRODUCTS) "product"
     = filed (next_oid db) SAMPLE_PRODUCTS
   ∧ seed_products (final (seed_products (Some db))) =
       MkOutcome
         (inr (VDict (list_to_map [
            ("message", VStr "Products already seeded");
            ("count", VInt 3)])))
         (Some (insert_all db SAMPLE_PRODUCTS)) [OpCount "product" ∅])
  ∧ (collection db "product" ≠ [] →
     seed_products (Some db) =
       MkOutcome
         (inr (VDict (list_to_map [
            ("message", VStr "Products already seeded");
            ("count", VInt (Z.of_nat (length (collection db "product"))))])))
         (Some db) [OpCount "product" ∅]).
Proof.
  split; [|apply seed_products_again].
  intros Hempty.
  assert (Hcoll : collection (insert_all db SAMPLE_PRODUCTS) "product"
                  = filed (next_oid db) SAMPLE_PRODUCTS).
  { by rewrite collection_insert_all, Hempty. }
  split_and!.
  - by apply seed_products_fresh.
  - exact Hcoll.
  - rewrite seed_products_fresh by done. cbn [final].
    rewrite seed_products_again by (by rewrite Hcoll).
    by rewrite Hcoll.
Qed.

(** ** Validation *)










(** ** Nested identifiers *)

(** C1: on a document that holds native identifiers inside a list of
    sub-documents, [serialize_doc] replaces [_id] by the string [id] and
    returns the nested identifier as it found it, so the serialized
    document still holds a native identifier. *)
Theorem serialize_doc_skips_nested `{PyStr} :
  serialize_doc (Some order_with_refs)
  = Some (list_to_map [
      ("id", VStr "000000000000000000000001");
      ("items", VList [VDict {["product_id" := VOid 2%N]}])
    ])
  ∧ has_oid (to_json (serialize_doc (Some order_with_refs))) = true.
Proof. split; vm_compute; reflexivity. Qed.

(** ** Serialization on the heap *)

Section HeapFacts.
Context `{Heap.HeapStr}.

Lemma dict_entries_at (h : gmap positive Heap.obj) l e :
  Heap.dict_entries (<[l := Heap.ODict e]> h) l = Some e.
Proof. unfold Heap.dict_entries. by rewrite lookup_insert_eq. Qed.

Lemma dict_setitem_at (h : gmap positive Heap.obj) l e k v :
  Heap.dict_setitem (<[l := Heap.ODict e]> h) l k v
  = Some (<[l := Heap.ODict (<[k := v]> e)]> h).
Proof.
  unfold Heap.dict_setitem. rewrite dict_entries_at. cbn.
  by rewrite insert_insert_eq.
Qed.

Lemma dict_pop_at (h : gmap positive Heap.obj) l e k v :
  e !! k = Some v →
  Heap.dict_pop (<[l := Heap.ODict e]> h) l k
  = Some (v, <[l := Heap.ODict (delete k e)]> h).
Proof.
  intros Hk. unfold Heap.dict_pop. rewrite dict_entries_at. cbn.
  rewrite Hk. cbn. by rewrite insert_insert_eq.
Qed.

(** The loop writes to the copy and to nothing else. *)
Lemma stringify_loop_at (h : gmap positive Heap.obj) l items e :
  Heap.stringify_loop l items (<[l := Heap.ODict e]> h)
  = Some (<[l := Heap.ODict (Heap.entries_after items e)]> h).
Proof.
  revert e. induction items as [|[k v] items IH]; intros e; [done|].
  cbn [Heap.stringify_loop].
  destruct v; try apply IH.
  rewrite dict_setitem_at. cbn. apply IH.
Qed.

(** A non-empty dictionary is serialized into a new object; the heap is
    otherwise as it was. *)
Lemma heap_serialize_run (h : gmap positive Heap.obj) l e :
  h !! l = Some (Heap.ODict e) → size e ≠ 0%nat →
  Heap.serialize_doc (Heap.HRef l) h =
    let l' := fresh (dom h) in
    let e' := Heap.renamed h l' e in
    Some (Heap.HRef l',
          <[l' := Heap.ODict (Heap.entries_after (map_to_list e') e')]> h).
Proof.
  intros Hl Hsz. unfold Heap.serialize_doc, Heap.truthy, Heap.dict_copy, Heap.renamed.
  rewrite Hl. cbn. rewrite bool_decide_eq_false_2 by done. cbn.
  rewrite dict_entries_at. cbn.
  destruct (e !! "_id") as [v|] eqn:Hid.
  - rewrite decide_True by eauto.
    rewrite (dict_pop_at _ _ _ _ v) by done. cbn.
    rewrite dict_setitem_at. cbn. rewrite dict_entries_at. cbn.
    rewrite stringify_loop_at. reflexivity.
  - rewrite decide_False by (by intros [? ?]). cbn.
    rewrite dict_entries_at. cbn.
    rewrite stringify_loop_at. reflexivity.
Qed.

(** C9: called on [None] or on a reference to a dictionary,
    [serialize_doc] returns; every object the heap held before the call,
    the argument and whatever it refers to included, is the same object
    with the same contents after it; for [None] and for an empty dictionary
    the result is the argument itself and the heap is untouched; otherwise
    the result is a dictionary that did not exist before the call. *)
Theorem serialize_doc_leaves_input (h : gmap positive Heap.obj) doc :
  Heap.is_doc h doc →
  ∃ r h',
    Heap.serialize_doc doc h = Some (r, h')
    ∧ (∀ l o, h !! l = Some o → h' !! l = Some o)
    ∧ (Heap.truthy h doc = Some false → r = doc ∧ h' = h)
    ∧ (Heap.truthy h doc = Some true →
       ∃ l', r = Heap.HRef l' ∧ h !! l' = None).
Proof.
  intros [->|(l & e & -> & Hl)].
  - exists Heap.HNone, h. split_and!; [done|done|done|done].
  - destruct (decide (size e = 0%nat)) as [Hsz|Hsz].
    + exists (Heap.HRef l), h.
      assert (Ht : Heap.truthy h (Heap.HRef l) = Some false).
      { unfold Heap.truthy. rewrite Hl. by rewrite bool_decide_eq_true_2. }
      split_and!; [|done|done|congruence].
      unfold Heap.serialize_doc. rewrite Ht. reflexivity.
    + assert (Ht : Heap.truthy h (Heap.HRef l) = Some true).
      { unfold Heap.truthy. rewrite Hl. by rewrite bool_decide_eq_false_2. }
      assert (Hfresh : h !! fresh (dom h) = None).
      { apply not_elem_of_dom. apply is_fresh. }
      rewrite (heap_serialize_run h l e) by done. cbv zeta.
      eexists _, _. split_and!; [reflexivity| |congruence|eauto].
      intros l0 o Hl0. rewrite lookup_insert_ne; [done|].
      intros <-. congruence.
Qed.

End HeapFacts.

(** ** The heap version refines the version on values *)

Lemma repr_mono (h h' : gmap positive Heap.obj) :
  (∀ l o, h !! l = Some o → h' !! l = Some o) →
  ∀ hv v, Heap.repr h hv v → Heap.repr h' hv v.
Proof.
  intros Hsub. fix IH 3. intros hv v R.
  destruct R as [| | | | | |l es vs Hl Hes|l e m Hl He]; try constructor.
  - apply (Heap.repr_list h' l es vs); [by apply Hsub|].
    clear Hl. revert es vs Hes. fix IHl 3. intros es vs Hes.
    destruct Hes as [|x y es vs Hxy Hes]; constructor.
    + by apply IH.
    + by apply IHl.
  - apply (Heap.repr_dict h' l e m); [by apply Hsub|].
    intros k. destruct (He k) as [x y Hxy|]; constructor. by apply IH.
Qed.

Lemma repr_stringify (h : gmap positive Heap.obj) hv v :
  Heap.repr h hv v → Heap.repr h (Heap.stringify hv) (stringify v).
Proof. destruct 1; cbn; econstructor; eauto. Qed.

Lemma entries_after_lookup items (acc : gmap string Heap.hval) k :
  NoDup items.*1 →
  Heap.entries_after items acc !! k =
  match (list_to_map items : gmap string Heap.hval) !! k with
  | Some (Heap.HOid o) => Some (Heap.HStr (ObjectId.str o))
  | _ => acc !! k
  end.
Proof.
  revert acc. induction items as [|[k' v'] items IH]; intros acc Hnd.
  - cbn. by rewrite lookup_empty.
  - apply NoDup_cons in Hnd as [Hk' Hnd].
    unfold Heap.entries_after in *. cbn [foldl]. rewrite IH by done.
    cbn [list_to_map foldr uncurry fst snd].
    destruct (decide (k = k')) as [->|Hne].
    + rewrite lookup_insert_eq.
      rewrite (not_elem_of_list_to_map_1 items k') by done.
      destruct v'; try done. by rewrite lookup_insert_eq.
    + rewrite (lookup_insert_ne _ k' k) by done.
      destruct (list_to_map items !! k) as [[]|]; try done;
        destruct v'; cbn; by rewrite ?lookup_insert_ne by done.
Qed.

(** The loop amounts to mapping [stringify] over the entries. *)
Lemma entries_after_fmap (e : gmap string Heap.hval) :
  Heap.entries_after (map_to_list e) e = Heap.stringify <$> e.
Proof.
  apply map_eq. intros k.
  rewrite entries_after_lookup by apply NoDup_fst_map_to_list.
  rewrite list_to_map_to_list, lookup_fmap.
  by destruct (e !! k) as [[]|].
Qed.

Section Refinement.
Context `{PyStr} `{Heap.HeapStr}.

(** The two [str] agree on values that stand for each other. *)
Hypothesis str_agree :
  ∀ h hv v, Heap.repr h hv v → Heap.str_other h hv = str_other v.

Lemma py_str_agree h hv v :
  Heap.repr h hv v → Heap.py_str h hv = py_str v.
Proof.
  intros R. pose proof (str_agree h hv v R) as Hs.
  destruct R; cbn; done.
Qed.

Lemma size_related (h : gmap positive Heap.obj)
    (e : gmap string Heap.hval) (m : gmap string value) :
  (∀ k, option_Forall2 (Heap.repr h) (e !! k) (m !! k)) →
  size e = 0%nat ↔ size m = 0%nat.
Proof.
  intros He. rewrite !map_size_empty_iff. split; intros ->; apply map_eq;
    intros k; specialize (He k); rewrite lookup_empty in *;
    by inversion He.
Qed.

(** X22: on a dictionary that stands for the document [m], the heap
    version returns a dictionary that stands for what the version on values
    returns for [m]. *)
Theorem heap_serialize_refines (h : gmap positive Heap.obj) l e m :
  h !! l = Some (Heap.ODict e) →
  (∀ k, option_Forall2 (Heap.repr h) (e !! k) (m !! k)) →
  ∃ r h' m',
    Heap.serialize_doc (Heap.HRef l) h = Some (r, h')
    ∧ serialize_doc (Some m) = Some m'
    ∧ Heap.repr h' r (VDict m').
Proof.
  intros Hl He. pose proof (size_related h e m He) as Hsize.
  destruct (decide (size e = 0%nat)) as [Hsz|Hsz].
  - exists (Heap.HRef l), h, m. split_and!.
    + unfold Heap.serialize_doc, Heap.truthy. rewrite Hl. cbn.
      by rewrite bool_decide_eq_true_2.
    + unfold serialize_doc. by rewrite decide_True by (by apply Hsize).
    + by apply (Heap.repr_dict h l e m).
  - assert (Hfresh : h !! fresh (dom h) = None)
      by apply not_elem_of_dom, is_fresh.
    set (l' := fresh (dom h)) in *.
    assert (Hsub : ∀ e', ∀ l0 o, h !! l0 = Some o →
                     <[l' := Heap.ODict e']> h !! l0 = Some o).
    { intros e' l0 o Hl0. rewrite lookup_insert_ne; [done|].
      intros <-. congruence. }
    rewrite (heap_serialize_run h l e) by done. cbv zeta. fold l'.
    rewrite entries_after_fmap.
    unfold serialize_doc. rewrite decide_False by (by rewrite <- Hsize).
    eexists _, _, _. split_and!; [reflexivity..|].
    eapply Heap.repr_dict; [apply lookup_insert_eq|].
    intros k. rewrite !lookup_fmap. unfold Heap.renamed.
    pose proof (He "_id") as Hid.
    destruct Hid as [x y Hxy|].
    + rewrite (py_str_agree _ x y)
        by (eapply repr_mono; [apply Hsub|exact Hxy]).
      destruct (decide (k = "id")) as [->|Hk].
      { rewrite !lookup_insert_eq. cbn. repeat constructor. }
      rewrite !(lookup_insert_ne _ "id" k) by done.
      destruct (decide (k = "_id")) as [->|Hk'].
      { rewrite !lookup_delete_eq. constructor. }
      rewrite !lookup_delete_ne by done.
      destruct (He k) as [x' y' Hxy'|]; constructor.
      apply repr_stringify. eapply repr_mono; [apply Hsub|exact Hxy'].
    + destruct (He k) as [x' y' Hxy'|]; constructor.
      apply repr_stringify. eapply repr_mono; [apply Hsub|exact Hxy'].
Qed.

End Refinement.

(** * Examples

    The statements above, at the fixtures. *)

Lemma seeded_fresh : fresh_ids seeded_db.
Proof.
  unfold seeded_db, SAMPLE_PRODUCTS. cbn [insert_all].
  do 3 apply inserted_fresh. apply map_Forall_empty.
Qed.

Lemma seeded_products :
  collection seeded_db "product" = filed 0%N SAMPLE_PRODUCTS.
Proof. unfold seeded_db. by rewrite collection_insert_all. Qed.

Lemma tee_resolves : resolves seeded_db "000000000000000000000000".
Proof.
  unfold resolves. exists 0%N. eexists. split; [by vm_compute|].
  rewrite seeded_products. split; [by left|].
  apply lookup_insert_eq.
Qed.


(** No seeded product carries the identifier [ff]. *)
Lemma seeded_without_ff d :
  d ∈ collection seeded_db "product" → d !! "_id" ≠ Some (VOid 255%N).
Proof.
  rewrite seeded_products. cbn [filed SAMPLE_PRODUCTS]. intros Hd.
  repeat (apply elem_of_cons in Hd as [->|Hd]);
    [rewrite lookup_insert_eq; discriminate..|].
  by apply elem_of_nil in Hd.
Qed.


Lemma create_order_atomic_rejection_witness :
  (∃ item, item ∈ Order.items (order_of mixed_items)
           ∧ ¬ resolves seeded_db (CartItem.product_id item))
  ∧ let r := create_order (H := plain_str) (order_of mixed_items)
               (Some seeded_db) in
    (∃ detail, result r = inl (HTTPException 400 detail))
    ∧ final r = Some seeded_db
    ∧ count_of (final r) "product" = count_of (Some seeded_db) "product"
    ∧ count_of (final r) "order" = count_of (Some seeded_db) "order"
    ∧ Forall (λ op, is_write op = false) (ops r).
Proof.
  assert (Hbad : ∃ item, item ∈ Order.items (order_of mixed_items)
                         ∧ ¬ resolves seeded_db (CartItem.product_id item)).
  { exists (item_of "0000000000000000000000ff" 1). split.
    - cbn. do 2 right. by left.
    - apply (not_resolves _ _ 255%N); [by vm_compute|].
      apply falsy_find_id. exact seeded_without_ff. }
  split; [exact Hbad|].
  exact (create_order_atomic_rejection (H := plain_str) seeded_db
           (order_of mixed_items) Hbad).
Defined.

Lemma create_then_get_witness :
  fresh_ids seeded_db
  ∧ (next_oid seeded_db < ObjectId.bound)%N
  ∧ result (create_product (H := plain_str) a_cap (Some seeded_db))
    = inr (VDict (<["id" := VStr "000000000000000000000003"]>
                    (model_dump a_cap)))
  ∧ result (get_product (H := plain_str) "000000000000000000000003"
              (final (create_product (H := plain_str) a_cap (Some seeded_db))))
    = inr (VDict (<["id" := VStr "000000000000000000000003"]>
                    (model_dump a_cap))).
Proof.
  assert (Hb : (next_oid seeded_db < ObjectId.bound)%N) by (by vm_compute).
  destruct (create_then_get (H := plain_str) seeded_db a_cap seeded_fresh Hb)
    as (Hcreated & Hfetched & _).
  split_and!; [exact seeded_fresh|exact Hb|exact Hcreated|exact Hfetched].
Defined.


Lemma seed_products_idempotent_witness :
  collection empty_db "product" = []
  ∧ result (seed_products (Some empty_db)) =
      inr (VDict (list_to_map [
        ("message", VStr "Seeded sample products");
        ("inserted", VList [VStr "000000000000000000000000";
                            VStr "000000000000000000000001";
                            VStr "000000000000000000000002"])]))
  ∧ final (seed_products (Some empty_db)) = Some seeded_db
  ∧ seed_products (Some seeded_db) =
      MkOutcome
        (inr (VDict (list_to_map [
           ("message", VStr "Products already seeded");
           ("count", VInt 3)])))
        (Some seeded_db) [OpCount "product" ∅].
Proof.
  assert (Hempty : collection empty_db "product" = []) by reflexivity.
  destruct (proj1 (seed_products_idempotent empty_db) Hempty)
    as (Hfirst & _ & Hsecond).
  rewrite Hfirst in Hsecond. rewrite Hfirst.
  split_and!; [exact Hempty|reflexivity|reflexivity|exact Hsecond].
Defined.


Lemma serialize_doc_leaves_input_witness :
  Heap.is_doc two_objects (Heap.HRef 1)
  ∧ ∃ r h',
      Heap.serialize_doc (H := heap_plain_str) (Heap.HRef 1) two_objects
        = Some (r, h')
      ∧ (∀ l o, two_objects !! l = Some o → h' !! l = Some o)
      ∧ (Heap.truthy two_objects (Heap.HRef 1) = Some false →
         r = Heap.HRef 1 ∧ h' = two_objects)
      ∧ (Heap.truthy two_objects (Heap.HRef 1) = Some true →
         ∃ l', r = Heap.HRef l' ∧ two_objects !! l' = None).
Proof.
  assert (Hdoc : Heap.is_doc two_objects (Heap.HRef 1)).
  { right. eexists _, _. split; [reflexivity|]. apply lookup_insert_eq. }
  split; [exact Hdoc|].
  exact (serialize_doc_leaves_input (H := heap_plain_str) two_objects
           (Heap.HRef 1) Hdoc).
Defined.

Lemma plain_str_agree h hv v :
  Heap.repr h hv v →
  Heap.str_other (HeapStr := heap_plain_str) h hv
  = str_other (PyStr := plain_str) v.
Proof. reflexivity. Qed.

(** The seeded store lists the tee and the hoodie as featured, and the
    joggers alone under featured=false. *)
Example featured_listing :
  result (list_products (H := plain_str) None (Some true) (Some seeded_db))
  = inr (VList (rendered (H := plain_str) <$>
                  take 2 (filed 0%N SAMPLE_PRODUCTS)))
  ∧ result (list_products (H := plain_str) (Some "") (Some false)
              (Some seeded_db))
    = inr (VList (rendered (H := plain_str) <$>
                    drop 2 (filed 0%N SAMPLE_PRODUCTS))).
Proof. split; vm_compute; reflexivity. Qed.

(** A category and featured together: the hoodie is the one featured
    product among the hoodies. *)
Example hoodie_listing :
  list_products (H := plain_str) (Some "Hoodies") (Some true) (Some seeded_db)
  = MkOutcome
      (inr (VList (rendered (H := plain_str) <$>
                     take 1 (drop 1 (filed 0%N SAMPLE_PRODUCTS)))))
      (Some seeded_db)
      [OpFind "product"
         (<["featured" := FBool true]> {["category" := FStr "Hoodies"]})].
Proof. vm_compute. reflexivity. Qed.

(** A complete order is written once every item has resolved. *)
Example order_accepted :
  let r := create_order (H := plain_str)
             (order_of [item_of "000000000000000000000001" 2])
             (Some seeded_db) in
  (∃ doc, result r = inr (VDict doc)
          ∧ doc !! "id" = Some (VStr "000000000000000000000003")
          ∧ doc !! "status" = Some (VStr "pending"))
  ∧ count_of (final r) "order" = 1%nat
  ∧ count_of (final r) "product" = 3%nat.
Proof.
  cbv zeta. split_and!; [|by vm_compute..].
  eexists. split_and!; [vm_compute; reflexivity|by vm_compute..].
Qed.

(** Identifiers are accepted in either case and printed in lower case. *)
Example ObjectId_case :
  ObjectId.parse "0000000000000000000000FF" = Some 255%N
  ∧ ObjectId.str 255%N = "0000000000000000000000ff"
  ∧ ObjectId.parse "0000000000000000000000f" = None
  ∧ ObjectId.parse "00000000000000000000000g" = None.
Proof. by vm_compute. Qed.

(** * Further facts *)

Section SerializeMore.
Context `{PyStr}.

Lemma stringify_idemp v : stringify (stringify v) = stringify v.
Proof. by destruct v. Qed.

(** The value under each key of a serialized non-empty document. *)
Lemma serialize_doc_lookup (m : gmap string value) k :
  size m ≠ 0%nat →
  ∃ d, serialize_doc (Some m) = Some d
       ∧ d !! k =
         if decide (k = "_id") then None
         else if decide (k = "id") then
           match m !! "_id" with
           | Some v => Some (VStr (py_str v))
           | None => stringify <$> m !! "id"
           end
         else stringify <$> m !! k.
Proof.
  intros Hsz. unfold serialize_doc. rewrite decide_False by done.
  eexists. split; [reflexivity|]. rewrite lookup_fmap.
  destruct (m !! "_id") as [v|] eqn:Hid.
  - destruct (decide (k = "_id")) as [->|Hk].
    { rewrite lookup_insert_ne by done. by rewrite lookup_delete_eq. }
    destruct (decide (k = "id")) as [->|Hk'].
    { by rewrite lookup_insert_eq. }
    rewrite lookup_insert_ne by done. by rewrite lookup_delete_ne.
  - destruct (decide (k = "_id")) as [->|Hk]; [by rewrite Hid|].
    destruct (decide (k = "id")) as [->|Hk']; done.
Qed.

(** X1: serializing what [serialize_doc] returned gives it back unchanged. *)
Theorem serialize_doc_idempotent doc :
  serialize_doc (serialize_doc doc) = serialize_doc doc.
Proof.
  destruct doc as [m|]; [|done].
  destruct (decide (size m = 0%nat)) as [Hsz|Hsz].
  { unfold serialize_doc. by rewrite !decide_True. }
  destruct (serialize_doc_lookup m "_id" Hsz) as (d & Hd & Hid).
  rewrite Hd. rewrite decide_True in Hid by done.
  assert (Hfix : stringify <$> d = d).
  { unfold serialize_doc in Hd. rewrite decide_False in Hd by done.
    injection Hd as <-. rewrite <- map_fmap_compose.
    apply map_fmap_ext. intros k v _. apply stringify_idemp. }
  unfold serialize_doc. destruct (decide (size d = 0%nat)); [done|].
  by rewrite Hid, Hfix.
Qed.

(** X2: when the document has an [_id], the result has no [_id], its [id] is
    the string of what [_id] held, whether or not the document had an [id] of
    its own, its keys are those of the document with [_id] replaced by [id],
    and every other key keeps its value, a native identifier directly under
    the key printed. *)
Theorem serialize_doc_renames_id (m d : gmap string value) v :
  m !! "_id" = Some v →
  serialize_doc (Some m) = Some d →
  d !! "id" = Some (VStr (py_str v))
  ∧ d !! "_id" = None
  ∧ dom d = {["id"]} ∪ (dom m ∖ {["_id"]})
  ∧ ∀ k, k ≠ "_id" → k ≠ "id" → d !! k = stringify <$> m !! k.
Proof.
  intros Hid Hd.
  assert (Hsz : size m ≠ 0%nat).
  { rewrite map_size_non_empty_iff. intros ->. by rewrite lookup_empty in Hid. }
  assert (Hk : ∀ k, d !! k =
    if decide (k = "_id") then None
    else if decide (k = "id") then Some (VStr (py_str v))
    else stringify <$> m !! k).
  { intros k. destruct (serialize_doc_lookup m k Hsz) as (d' & Hd' & Hk).
    rewrite Hid in Hk. congruence. }
  split_and!.
  - by rewrite Hk.
  - by rewrite Hk.
  - apply set_eq. intros k. rewrite elem_of_union, elem_of_difference,
      elem_of_singleton, !elem_of_dom, not_elem_of_singleton, Hk.
    destruct (decide (k = "_id")) as [->|]; [split; [by intros []|intros [|[]]; done]|].
    destruct (decide (k = "id")) as [->|]; [split; eauto|].
    rewrite fmap_is_Some. split; [eauto|]. by intros [|[]].
  - intros k Hk1 Hk2. rewrite Hk. by rewrite !decide_False.
Qed.

(** X3: a list or a sub-document under a key of the document is returned
    as it is, whatever it holds, unless the key is [id] and gives way to the
    renamed [_id]. *)
Theorem serialize_doc_keeps_containers (m d : gmap string value) k v :
  serialize_doc (Some m) = Some d →
  m !! k = Some v →
  k ≠ "_id" →
  k ≠ "id" ∨ m !! "_id" = None →
  (∃ l, v = VList l) ∨ (∃ sub, v = VDict sub) →
  d !! k = Some v.
Proof.
  intros Hd Hk Hne Hid Hv.
  assert (Hsz : size m ≠ 0%nat).
  { rewrite map_size_non_empty_iff. intros ->. by rewrite lookup_empty in Hk. }
  destruct (serialize_doc_lookup m k Hsz) as (d' & Hd' & Hk').
  assert (d' = d) as -> by congruence.
  rewrite Hk', decide_False by done.
  assert (Hs : stringify v = v) by (by destruct Hv as [[? ->]|[? ->]]).
  destruct (decide (k = "id")) as [->|].
  - destruct Hid as [|Hnone]; [done|]. by rewrite Hnone, Hk; cbn; rewrite Hs.
  - by rewrite Hk; cbn; rewrite Hs.
Qed.
End SerializeMore.

(** ** Reading handlers *)

Lemma matches_insert (q : gmap string fval) k f d :
  q !! k = None →
  matches (<[k := f]> q) d = field_matches d k f && matches q d.
Proof.
  intros Hk. unfold matches.
  destruct (field_matches d k f) eqn:Ef; cbn.
  - apply bool_decide_ext. rewrite map_Forall_insert by done.
    split; [by intros [_ ?]|by intros ?].
  - apply bool_decide_eq_false. rewrite map_Forall_insert by done.
    intros [? _]. congruence.
Qed.

(** Constructing an identifier from a printed one cannot fail. *)
Lemma ObjectId_parse_str_mod o :
  ObjectId.parse (ObjectId.str o) = Some (o mod 16 ^ 24)%N.
Proof.
  unfold ObjectId.parse, ObjectId.str. rewrite length_to_hex.
  rewrite decide_True by done. apply (of_hex_to_hex 24).
Qed.

Section Reads.
Context `{PyStr}.

(** X4: fetching a product and listing products leave the store, configured
    or not, exactly as it was, and ask it at most one thing, never a write. *)
Theorem readers_leave_store w :
  (∀ pid,
     final (get_product pid w) = w
     ∧ Forall (λ op, is_write op = false) (ops (get_product pid w))
     ∧ (length (ops (get_product pid w)) ≤ 1)%nat)
  ∧ (∀ category featured,
     final (list_products category featured w) = w
     ∧ Forall (λ op, is_write op = false)
         (ops (list_products category featured w))
     ∧ (length (ops (list_products category featured w)) ≤ 1)%nat).
Proof.
  split.
  - intros pid. destruct w as [db|]; [|by repeat constructor].
    unfold get_product. run. cbn.
    destruct (ObjectId.parse pid) as [o|]; cbn; [|by repeat constructor].
    destruct (falsy_doc _); cbn; by repeat constructor.
  - intros c f. destruct w as [db|]; by repeat constructor.
Qed.

Lemma resolves_head db pid :
  resolves db pid →
  ∃ o d, ObjectId.parse pid = Some o
    ∧ head (filter (λ d, matches {["_id" := FOid o]} d)
              (collection db "product")) = Some d.
Proof.
  intros (o & d & Hp & Hd & Hid). exists o.
  destruct (head _) as [d'|] eqn:E; [by exists d'|].
  pose proof (proj1 (find_id_None (collection db "product") o) E) as Hno.
  by destruct (Hno d Hd).
Qed.

(** X5: fetching by an identifier that resolves returns a product document
    that carries this identifier, serialized: its [id] is the identifier in
    its printed form, it has no [_id], and its other fields are the stored
    ones; the store is asked once. *)
Theorem get_product_success db pid :
  resolves db pid →
  ∃ o d shown,
    ObjectId.parse pid = Some o
    ∧ d ∈ collection db "product"
    ∧ d !! "_id" = Some (VOid o)
    ∧ get_product pid (Some db) =
        MkOutcome (inr (VDict shown)) (Some db)
          [OpFindOne "product" {["_id" := FOid o]}]
    ∧ shown !! "id" = Some (VStr (ObjectId.str o))
    ∧ shown !! "_id" = None
    ∧ ∀ k, k ≠ "_id" → k ≠ "id" → shown !! k = stringify <$> d !! k.
Proof.
  intros Hres. destruct (resolves_head db pid Hres) as (o & d & Hp & Hhd).
  pose proof (find_id_Some _ _ _ Hhd) as (Hd & Hid & Hf).
  assert (Hsz : size d ≠ 0%nat).
  { cbn in Hf. by apply bool_decide_eq_false in Hf. }
  exists o, d, (stringify <$> <["id" := VStr (ObjectId.str o)]> (delete "_id" d)).
  split_and!; [done..| | | |].
  - rewrite (get_product_found db pid o d) by done.
    unfold rendered, serialize_doc. rewrite decide_False by done.
    by rewrite Hid.
  - by rewrite lookup_fmap, lookup_insert_eq.
  - rewrite lookup_fmap, lookup_insert_ne by done. by rewrite lookup_delete_eq.
  - intros k Hk1 Hk2. rewrite lookup_fmap, lookup_insert_ne by done.
    by rewrite lookup_delete_ne.
Qed.

(** X6: with a configured store, fetching a product succeeds exactly when
    the identifier is well formed and some product document carries it. *)
Theorem get_product_succeeds_iff db pid :
  (∃ doc, result (get_product pid (Some db)) = inr doc) ↔ resolves db pid.
Proof.
  split.
  - intros [doc Hdoc]. destruct (decide (resolves db pid)) as [|Hn]; [done|].
    exfalso. revert Hdoc. unfold get_product. run. cbn.
    destruct (ObjectId.parse pid) as [o|] eqn:Hp; cbn; [|done].
    apply (not_resolves db pid o Hp) in Hn. by rewrite Hn.
  - intros Hres. destruct (resolves_head db pid Hres) as (o & d & Hp & Hhd).
    rewrite (get_product_found db pid o d) by done. eauto.
Qed.

(** X7: listing with a category that is not the empty string returns,
    serialized and in the order of the collection, exactly the documents
    whose [category] field is that string and, when [featured] is given,
    whose [featured] field is that boolean. *)
Theorem list_products_by_category db c featured :
  c ≠ "" →
  list_products (Some c) featured (Some db) =
    MkOutcome
      (inr (VList (rendered <$>
         filter (λ d, category_is c d
                      && match featured with
                         | Some b => featured_is b d
                         | None => true
                         end)
           (collection db "product"))))
      (Some db) [OpFind "product" (build_query (Some c) featured)].
Proof.
  intros Hc. rewrite list_products_run. do 4 f_equal.
  apply list_filter_iff. intros d. unfold build_query.
  rewrite decide_False by done. unfold category_is, featured_is.
  destruct featured as [b|].
  - rewrite !matches_insert, matches_empty
      by (rewrite ?lookup_insert_ne by done; apply lookup_empty).
    rewrite andb_true_r. by rewrite andb_comm.
  - rewrite matches_insert, matches_empty by apply lookup_empty. done.
Qed.

End Reads.

(** ** Writing handlers *)

Lemma Order_dump_plain o :
  stringify <$> Order.dump o = Order.dump o
  ∧ Order.dump o !! "_id" = None
  ∧ Order.dump o !! "id" = None.
Proof.
  split_and!.
  - unfold Order.dump. cbn [list_to_map foldr fst snd uncurry].
    by rewrite !fmap_insert, fmap_empty.
  - by vm_compute.
  - by vm_compute.
Qed.

Lemma head_app_Some {A} (l1 l2 : list A) x :
  head l1 = Some x → head (l1 ++ l2) = Some x.
Proof. by destruct l1. Qed.

Section Writes.
Context `{PyStr}.

(** What [create_product] does to the store holds for every store: one
    document appended to the product collection, one identifier used. *)
Lemma create_product_final db p :
  final (create_product p (Some db))
  = Some (inserted db "product" (model_dump p))
  ∧ ops (create_product p (Some db))
    = [OpInsert "product" (<["_id" := VOid (next_oid db)]> (model_dump p));
       OpFindOne "product" {["_id" := FOid (next_oid db mod 16 ^ 24)%N]}].
Proof.
  unfold create_product.
  rewrite bind_run. cbn [check_db ret result final ops].
  rewrite bind_run, create_document_run. cbn [result final ops].
  rewrite bind_run. unfold ObjectId_new. rewrite ObjectId_parse_str_mod.
  cbn [ret result final ops]. done.
Qed.

(** The part of [create_order] after the loop, once every item resolved. *)
Lemma create_order_accepted_run db order :
  Forall (λ i, resolves db (CartItem.product_id i)) (Order.items order) →
  create_order order (Some db) =
    MkOutcome
      (inr (to_json (serialize_doc
         (head (filter
            (λ d, matches {["_id" := FOid (next_oid db mod 16 ^ 24)%N]} d)
            (collection db "order"
               ++ [<["_id" := VOid (next_oid db)]> (model_dump order)]))))))
      (Some (inserted db "order" (model_dump order)))
      (item_lookups (Order.items order)
         ++ [OpInsert "order"
               (<["_id" := VOid (next_oid db)]> (model_dump order));
             OpFindOne "order"
               {["_id" := FOid (next_oid db mod 16 ^ 24)%N]}]).
Proof.
  intros Hall. unfold create_order.
  rewrite bind_run. cbn [check_db ret result final ops].
  rewrite bind_run, for_each_accept by done. cbn [result final ops].
  rewrite bind_run, create_document_run. cbn [result final ops].
  rewrite bind_run. unfold ObjectId_new. rewrite ObjectId_parse_str_mod.
  cbn [ret result final ops].
  rewrite bind_run. unfold find_one. cbn [result final ops ret].
  rewrite collection_inserted. cbn [app]. reflexivity.
Qed.

Lemma create_order_rejected_run db order :
  ¬ Forall (λ i, resolves db (CartItem.product_id i)) (Order.items order) →
  ∃ e trace,
    create_order order (Some db) = MkOutcome (inl e) (Some db) trace.
Proof.
  intros Hn. apply not_Forall_Exists in Hn; [|apply _].
  apply Exists_exists in Hn as (bad & Hin & Hbad).
  destruct (first_failure (λ i, resolves db (CartItem.product_id i))
              (Order.items order)) as (pre & b & post & Hitems & Hpre & Hb).
  { by exists bad. }
  eexists _, _. unfold create_order.
  rewrite bind_run. cbn [check_db ret result final ops].
  rewrite bind_run, Hitems, for_each_reject by done. reflexivity.
Qed.

(** X8: when every item resolves, on a store whose identifiers lie below
    its counter, order creation looks every item up, writes the order once
    and returns it with the added [id]; the product collection is what it
    was (no stock is touched) and the order collection has the one new
    document at its end. *)
Theorem create_order_accepts db order :
  Forall (λ i, resolves db (CartItem.product_id i)) (Order.items order) →
  fresh_ids db → (next_oid db < ObjectId.bound)%N →
  create_order order (Some db) =
    MkOutcome
      (inr (VDict (<["id" := VStr (ObjectId.str (next_oid db))]>
                     (model_dump order))))
      (Some (inserted db "order" (model_dump order)))
      (item_lookups (Order.items order)
         ++ [OpInsert "order"
               (<["_id" := VOid (next_oid db)]> (model_dump order));
             OpFindOne "order" {["_id" := FOid (next_oid db)]}])
  ∧ collection (inserted db "order" (model_dump order)) "product"
    = collection db "product"
  ∧ collection (inserted db "order" (model_dump order)) "order"
    = collection db "order"
      ++ [<["_id" := VOid (next_oid db)]> (model_dump order)].
Proof.
  intros Hall Hf Hb. split_and!.
  - rewrite create_order_accepted_run by done.
    rewrite N.mod_small by exact Hb.
    rewrite find_appended by (by apply collection_fresh).
    destruct (Order_dump_plain order) as (Hplain & Hid & _).
    unfold model_dump, Order_model. rewrite serialize_stored by done.
    reflexivity.
  - by apply collection_inserted_ne.
  - apply collection_inserted.
Qed.

(** X9: an order without items is accepted: no product is looked up and the
    order is written. *)
Theorem create_order_empty db order :
  Order.items order = [] →
  fresh_ids db → (next_oid db < ObjectId.bound)%N →
  create_order order (Some db) =
    MkOutcome
      (inr (VDict (<["id" := VStr (ObjectId.str (next_oid db))]>
                     (model_dump order))))
      (Some (inserted db "order" (model_dump order)))
      [OpInsert "order" (<["_id" := VOid (next_oid db)]> (model_dump order));
       OpFindOne "order" {["_id" := FOid (next_oid db)]}].
Proof.
  intros Hitems Hf Hb.
  rewrite create_order_accepted_run by (rewrite Hitems; constructor).
  rewrite N.mod_small by exact Hb.
  rewrite find_appended by (by apply collection_fresh).
  destruct (Order_dump_plain order) as (Hplain & Hid & _).
  unfold model_dump, Order_model. rewrite serialize_stored by done.
  by rewrite Hitems.
Qed.

(** X10: whatever the order and the store, order creation never changes the
    product collection; when it succeeds every item resolved and exactly one
    document, the order, was appended to the order collection; when it fails
    the store is the one it found. *)
Theorem create_order_store_effect db order :
  ∃ db', final (create_order order (Some db)) = Some db'
    ∧ collection db' "product" = collection db "product"
    ∧ match result (create_order order (Some db)) with
      | inr _ =>
          Forall (λ i, resolves db (CartItem.product_id i)) (Order.items order)
          ∧ collection db' "order"
            = collection db "order"
              ++ [<["_id" := VOid (next_oid db)]> (model_dump order)]
      | inl _ => db' = db
      end.
Proof.
  destruct (decide (Forall (λ i, resolves db (CartItem.product_id i))
                      (Order.items order))) as [Hall|Hn].
  - rewrite create_order_accepted_run by done. cbn [final result].
    eexists. split; [reflexivity|]. split_and!.
    + by apply collection_inserted_ne.
    + done.
    + apply collection_inserted.
  - destruct (create_order_rejected_run db order Hn) as (e & trace & ->).
    cbn [final result]. by exists db.
Qed.

End Writes.

(** ** How the handlers compose *)

Lemma Product_dump_filter_fields p o :
  field_matches (<["_id" := VOid o]> (Product.dump p)) "category"
  = (λ f, match f with
          | FStr c => bool_decide (Product.category p = c)
          | _ => false
          end)
  ∧ field_matches (<["_id" := VOid o]> (Product.dump p)) "featured"
    = (λ f, match f with
            | FBool b => bool_decide (Product.featured p = b)
            | _ => false
            end).
Proof.
  unfold field_matches. rewrite !lookup_insert_ne by done.
  assert (Hc : Product.dump p !! "category" = Some (VStr (Product.category p)))
    by (by vm_compute).
  assert (Hf : Product.dump p !! "featured" = Some (VBool (Product.featured p)))
    by (by vm_compute).
  rewrite Hc, Hf. done.
Qed.

Lemma matches_stored_product p o category featured :
  matches (build_query category featured) (<["_id" := VOid o]> (Product.dump p))
  = listed_under category featured p.
Proof.
  destruct (Product_dump_filter_fields p o) as [Hc Hf].
  unfold build_query, listed_under.
  destruct category as [c|], featured as [b|];
    try destruct (decide (c = "")) as [->|Hne];
    rewrite ?matches_insert, ?matches_empty
      by (rewrite ?lookup_insert_ne by done; apply lookup_empty);
    rewrite ?Hc, ?Hf, ?andb_true_r; cbn.
  - by rewrite (bool_decide_eq_true_2 ("" = "" ∨ _)) by (by left).
  - rewrite andb_comm. f_equal. apply bool_decide_ext.
    split; [by right|by intros [?|?]].
  - by rewrite (bool_decide_eq_true_2 ("" = "" ∨ _)) by (by left).
  - apply bool_decide_ext. split; [by right|by intros [?|?]].
  - done.
  - done.
Qed.

Section Compose.
Context `{PyStr}.

Lemma get_product_same_products db1 db2 pid :
  collection db1 "product" = collection db2 "product" →
  result (get_product pid (Some db1)) = result (get_product pid (Some db2))
  ∧ ops (get_product pid (Some db1)) = ops (get_product pid (Some db2)).
Proof.
  intros Heq. unfold get_product, find_one. run. cbn.
  destruct (ObjectId.parse pid) as [o|]; cbn; [|done].
  rewrite Heq. by destruct (falsy_doc _).
Qed.

(** X11: after an order was created or rejected, fetching any product and
    listing under any filter answer what they answered before. *)
Theorem orders_leave_products db order :
  (∀ pid,
     result (get_product pid (final (create_order order (Some db))))
     = result (get_product pid (Some db)))
  ∧ (∀ category featured,
     result (list_products category featured
               (final (create_order order (Some db))))
     = result (list_products category featured (Some db))).
Proof.
  assert (∃ db', final (create_order order (Some db)) = Some db'
                 ∧ collection db' "product" = collection db "product")
    as (db' & -> & Heq).
  { destruct (decide (Forall (λ i, resolves db (CartItem.product_id i))
                        (Order.items order))) as [Hall|Hn].
    - rewrite create_order_accepted_run by done. eexists. split; [done|].
      by apply collection_inserted_ne.
    - destruct (create_order_rejected_run db order Hn) as (e & trace & ->).
      by exists db. }
  split.
  - intros pid. by apply get_product_same_products.
  - intros c f. rewrite !list_products_run. cbn [result]. by rewrite Heq.
Qed.

(** X12: creating a product does not change what fetching an identifier
    that already resolved returns. *)
Theorem create_product_keeps_others db p pid :
  resolves db pid →
  result (get_product pid (final (create_product p (Some db))))
  = result (get_product pid (Some db)).
Proof.
  intros Hres. destruct (resolves_head db pid Hres) as (o & d & Hp & Hhd).
  rewrite (proj1 (create_product_final db p)).
  rewrite (get_product_found db pid o d Hp Hhd).
  rewrite (get_product_found _ pid o d Hp); [reflexivity|].
  rewrite collection_inserted, filter_app. by apply head_app_Some.
Qed.

(** X13: listing after a product was created returns what the listing
    returned before and then, when the filters admit the product (category
    absent, empty or the product's own; featured absent or the product's
    own), the created product with its [id]. *)
Theorem created_product_is_listed db p category featured :
  result (list_products category featured
            (final (create_product p (Some db))))
  = inr (VList (
      (rendered <$> filter (λ d, matches (build_query category featured) d)
                      (collection db "product"))
      ++ if listed_under category featured p
         then [VDict (<["id" := VStr (ObjectId.str (next_oid db))]>
                        (model_dump p))]
         else []))
  ∧ result (list_products category featured (Some db))
    = inr (VList
        (rendered <$> filter (λ d, matches (build_query category featured) d)
                        (collection db "product"))).
Proof.
  split; [|by rewrite list_products_run].
  rewrite (proj1 (create_product_final db p)), list_products_run.
  cbn [result]. rewrite collection_inserted, filter_app, fmap_app.
  do 3 f_equal. unfold model_dump, Product_model.
  destruct (listed_under category featured p) eqn:E.
  - rewrite filter_cons_True
      by (rewrite matches_stored_product, E; done).
    rewrite filter_nil. cbn [fmap list_fmap]. f_equal.
    destruct (Product_dump_plain p) as (Hplain & Hid & _).
    unfold rendered. by rewrite serialize_stored.
  - rewrite filter_cons_False
      by (rewrite matches_stored_product, E; cbn; tauto).
    by rewrite filter_nil.
Qed.

(** X14: two products created one after the other come back with different
    ids. *)
Theorem successive_ids_differ db p1 p2 :
  fresh_ids db → (next_oid db + 1 < ObjectId.bound)%N →
  ∃ id1 id2,
    result (create_product p1 (Some db))
    = inr (VDict (<["id" := VStr id1]> (model_dump p1)))
    ∧ result (create_product p2 (final (create_product p1 (Some db))))
      = inr (VDict (<["id" := VStr id2]> (model_dump p2)))
    ∧ id1 ≠ id2.
Proof.
  intros Hf Hb. eexists _, _.
  rewrite (create_product_run db p1) by (done || lia). cbn [result final].
  rewrite create_product_run;
    [|by apply inserted_fresh|cbn [inserted next_oid]; lia].
  cbn [result inserted next_oid]. split_and!; [reflexivity..|].
  intros Heq. apply (f_equal ObjectId.parse) in Heq.
  rewrite !ObjectId_parse_str in Heq by lia. injection Heq. lia.
Qed.

End Compose.

(** ** Seeding, then fetching *)

Lemma issued_lookup n ps i (p : Product.t) :
  ps !! i = Some p →
  issued n ps !! i = Some (ObjectId.str (n + N.of_nat i)%N).
Proof.
  revert n i. induction ps as [|q ps IH]; intros n i Hi; [done|].
  destruct i as [|i]; cbn [issued].
  - cbn. by rewrite N.add_0_r.
  - change (issued (N.succ n) ps !! i
            = Some (ObjectId.str (n + N.of_nat (S i))%N)).
    rewrite (IH (N.succ n) i Hi). do 2 f_equal. lia.
Qed.

Lemma find_filed n ps i (p : Product.t) :
  ps !! i = Some p →
  head (filter (λ d, matches {["_id" := FOid (n + N.of_nat i)%N]} d)
          (filed n ps))
  = Some (<["_id" := VOid (n + N.of_nat i)%N]> (model_dump p)).
Proof.
  revert n i. induction ps as [|q ps IH]; intros n i Hi; [done|].
  destruct i as [|i]; cbn [filed].
  - cbn in Hi. injection Hi as ->. rewrite N.add_0_r.
    rewrite filter_cons_True by (rewrite matches_id; apply lookup_insert_eq).
    reflexivity.
  - cbn in Hi. rewrite filter_cons_False.
    + replace (n + N.of_nat (S i))%N with (N.succ n + N.of_nat i)%N by lia.
      by apply IH.
    + rewrite matches_id, lookup_insert_eq. intros [=]. lia.
Qed.

(** X15: after seeding a store whose product collection was empty, the id
    returned at each position fetches the sample product at that position. *)
Theorem seeded_ids_fetch `{PyStr} db i p :
  collection db "product" = [] →
  (next_oid db + 3 ≤ ObjectId.bound)%N →
  SAMPLE_PRODUCTS !! i = Some p →
  issued (next_oid db) SAMPLE_PRODUCTS !! i
  = Some (ObjectId.str (next_oid db + N.of_nat i)%N)
  ∧ result (get_product (ObjectId.str (next_oid db + N.of_nat i)%N)
              (final (seed_products (Some db))))
    = inr (VDict (<["id" := VStr (ObjectId.str (next_oid db + N.of_nat i)%N)]>
                    (model_dump p))).
Proof.
  intros Hempty Hb Hi. split; [by apply (issued_lookup _ _ _ p)|].
  assert (Hlt : (i < 3)%nat) by (by apply lookup_lt_Some in Hi).
  rewrite seed_products_fresh by done. cbn [final].
  erewrite get_product_found;
    [|apply ObjectId_parse_str; unfold ObjectId.bound in *; lia
     |rewrite collection_insert_all, Hempty; cbn [app]; by apply find_filed].
  cbn [result]. unfold rendered, model_dump, Product_model.
  destruct (Product_dump_plain p) as (Hplain & Hid & _).
  by rewrite serialize_stored.
Qed.

(** ** Stores the routes can reach *)

Lemma well_kept_inserted db name m :
  well_kept db → well_kept (inserted db name m).
Proof.
  intros Hk name'.
  assert (Hgrow : ∀ docs, has_ids (next_oid db) docs →
                    has_ids (N.succ (next_oid db)) docs).
  { intros docs Hdocs. eapply Forall_impl; [exact Hdocs|].
    intros d (o & Ho & Hlt). exists o. split; [done|lia]. }
  destruct (decide (name = name')) as [<-|Hne].
  - rewrite collection_inserted. destruct (Hk name) as [Hids Huniq]. split.
    + apply Forall_app. split; [by apply Hgrow|].
      constructor; [|constructor]. exists (next_oid db).
      rewrite lookup_insert_eq. split; [done|]. cbn. lia.
    + intros i j d1 d2 Hi Hj Heq.
      assert (Hold : ∀ k d, (collection db name ++
                 [<["_id" := VOid (next_oid db)]> m]) !! k = Some d →
                 (k < length (collection db name))%nat →
                 ∃ o, d !! "_id" = Some (VOid o) ∧ (o < next_oid db)%N).
      { intros k d Hkd Hlt. rewrite lookup_app_l in Hkd by done.
        unfold has_ids in Hids. rewrite Forall_forall in Hids. apply Hids.
        by eapply list_elem_of_lookup_2. }
      assert (Hnew : ∀ k d, (collection db name ++
                 [<["_id" := VOid (next_oid db)]> m]) !! k = Some d →
                 ¬ (k < length (collection db name))%nat →
                 k = length (collection db name)
                 ∧ d !! "_id" = Some (VOid (next_oid db))).
      { intros k d Hkd Hge. rewrite lookup_app_r in Hkd by lia.
        apply list_lookup_singleton_Some in Hkd as [Hk0 <-].
        split; [lia|apply lookup_insert_eq]. }
      destruct (decide (i < length (collection db name))%nat) as [Hi'|Hi'],
               (decide (j < length (collection db name))%nat) as [Hj'|Hj'].
      * rewrite lookup_app_l in Hi by done.
        rewrite lookup_app_l in Hj by done. by eapply Huniq.
      * destruct (Hold i d1 Hi Hi') as (o & Ho & Hlt).
        destruct (Hnew j d2 Hj Hj') as (_ & Hn).
        rewrite Ho, Hn in Heq. injection Heq. lia.
      * destruct (Hold j d2 Hj Hj') as (o & Ho & Hlt).
        destruct (Hnew i d1 Hi Hi') as (_ & Hn).
        rewrite Ho, Hn in Heq. injection Heq. lia.
      * destruct (Hnew i d1 Hi Hi') as (-> & _).
        by destruct (Hnew j d2 Hj Hj') as (-> & _).
  - rewrite collection_inserted_ne by done. destruct (Hk name') as [Hids Huniq].
    split; [by apply Hgrow|done].
Qed.

Lemma well_kept_insert_all db ps :
  well_kept db → well_kept (insert_all db ps).
Proof.
  revert db. induction ps as [|p ps IH]; intros db Hk; [done|].
  cbn [insert_all]. by apply IH, well_kept_inserted.
Qed.

Lemma next_oid_insert_all db ps :
  (next_oid db ≤ next_oid (insert_all db ps))%N.
Proof.
  revert db. induction ps as [|p ps IH]; intros db; [done|].
  cbn [insert_all]. etrans; [|apply IH]. cbn. lia.
Qed.

Lemma well_kept_fresh db : well_kept db → fresh_ids db.
Proof.
  intros Hk name docs Hdocs. destruct (Hk name) as [Hids _].
  unfold collection in Hids. rewrite Hdocs in Hids. cbn in Hids.
  eapply Forall_impl; [exact Hids|].
  intros d (o & Ho & Hlt). unfold id_below. by rewrite Ho.
Qed.

Section Routes.
Context `{PyStr} `{EmailSyntax}.

(** A request leaves the store as it was, or with one document appended to
    one collection, or with the sample products appended. *)
Lemma handle_final r db :
  final (handle r (Some db)) = Some db
  ∨ (∃ name m, final (handle r (Some db)) = Some (inserted db name m))
  ∨ final (handle r (Some db)) = Some (insert_all db SAMPLE_PRODUCTS).
Proof.
  destruct r as [c f|pid|p|o|]; cbn [handle].
  - by left.
  - left. unfold get_product. run. cbn.
    destruct (ObjectId.parse pid); cbn; [|done]. by destruct (falsy_doc _).
  - unfold post_products, validated. destruct (Product.errors p); [|by left].
    right. left. eexists _, _. apply create_product_final.
  - unfold post_orders, validated. destruct (Order.errors o); [|by left].
    destruct (decide (Forall (λ i, resolves db (CartItem.product_id i))
                        (Order.items o))) as [Hall|Hn].
    + right. left. eexists _, _.
      by rewrite create_order_accepted_run.
    + left. by destruct (create_order_rejected_run db o Hn) as (e & t & ->).
  - destruct (collection db "product") as [|d docs] eqn:E.
    + right. right. by rewrite seed_products_fresh.
    + left. by rewrite seed_products_again by (by rewrite E).
Qed.

(** X16: whatever requests are served from a store in which every document
    carries a store identifier below the counter and no two documents of a
    collection share one, the store stays such a store, and the counter
    never goes back. *)
Theorem served_stores_well_kept rs db :
  well_kept db →
  ∃ db', serve rs (Some db) = Some db'
         ∧ well_kept db'
         ∧ fresh_ids db'
         ∧ (next_oid db ≤ next_oid db')%N.
Proof.
  revert db. induction rs as [|r rs IH]; intros db Hk.
  - exists db. split_and!; [done|done|by apply well_kept_fresh|done].
  - cbn [serve].
    destruct (handle_final r db) as [->|[(name & m & ->)| ->]].
    + by apply IH.
    + destruct (IH (inserted db name m)) as (db' & Hs & Hk' & Hf & Hle);
        [by apply well_kept_inserted|].
      exists db'. split_and!; [done..|]. cbn in Hle. lia.
    + destruct (IH (insert_all db SAMPLE_PRODUCTS)) as (db' & Hs & Hk' & Hf & Hle);
        [by apply well_kept_insert_all|].
      exists db'. split_and!; [done..|].
      etrans; [apply (next_oid_insert_all db SAMPLE_PRODUCTS)|done].
Qed.

End Routes.

(** ** Validation, both ways *)

Lemma mjoin_imap_nil {A B C} (g : nat → B → C) (errs : A → list B) l :
  mjoin (imap (λ i a, g i <$> errs a) l) = []
  ↔ Forall (λ a, errs a = []) l.
Proof.
  revert g. induction l as [|a l IH]; intros g; [by split|].
  rewrite imap_cons. cbn [mjoin]. rewrite Forall_cons.
  specialize (IH (λ i, g (S i))). split.
  - intros Happ. apply app_eq_nil in Happ as [Ha Hl]. split.
    + by apply fmap_nil_inv in Ha.
    + apply IH. exact Hl.
  - intros [Ha Hl]. rewrite Ha. cbn. apply IH in Hl. exact Hl.
Qed.

Lemma at_index_nil {A} field (errs : A → list FieldError) l :
  at_index field errs l = [] ↔ Forall (λ a, errs a = []) l.
Proof. unfold at_index. apply mjoin_imap_nil. Qed.

Lemma ge_float_nil field x :
  ge_float field x = [] ↔ (0 <=? x)%float = true.
Proof. unfold ge_float. by destruct (0 <=? x)%float. Qed.

Lemma ge_int_nil field bound n :
  ge_int field bound n = [] ↔ (bound ≤ n)%Z.
Proof.
  unfold ge_int. destruct (Z.leb_spec bound n); split; (done || lia).
Qed.

(** X17: a product body passes validation exactly when its price is at
    least 0 and every variant's stock is at least 0, and a body that passes
    is handled by [create_product]. *)
Theorem valid_product_iff `{PyStr} p :
  (Product.errors p = [] ↔
     (0 <=? Product.price p)%float = true
     ∧ Forall (λ v, (0 ≤ ProductVariant.stock v)%Z) (Product.variants p))
  ∧ (Product.errors p = [] → ∀ w, post_products p w = create_product p w).
Proof.
  split.
  - unfold Product.errors. split.
    + intros Happ. apply app_eq_nil in Happ as [Hp Hv].
      apply ge_float_nil in Hp. apply at_index_nil in Hv. split; [done|].
      eapply Forall_impl; [exact Hv|]. intros v. apply ge_int_nil.
    + intros [Hp Hv]. rewrite (proj2 (ge_float_nil "price" _) Hp). cbn.
      apply at_index_nil. eapply Forall_impl; [exact Hv|].
      intros v. apply ge_int_nil.
  - intros Hok w. unfold post_products, validated. by rewrite Hok.
Qed.


Section Diagnostics.
Context `{TextEncoding}.

(** X19: the diagnostic report always has the same six keys, says the
    backend is running, never shows the initial "Not Available" for the
    database, and lists at most ten collections. *)
Theorem test_database_shape database_url db :
  dom (test_database database_url db)
  = list_to_set ["backend"; "database"; "database_url"; "database_name";
                 "connection_status"; "collections"]
  ∧ test_database database_url db !! "backend" = Some (VStr "✅ Running")
  ∧ test_database database_url db !! "database"
    ≠ Some (VStr "❌ Not Available")
  ∧ ∃ names,
      test_database database_url db !! "collections"
      = Some (VList (VStr <$> names))
      ∧ (length names ≤ 10)%nat.
Proof.
  unfold test_database.
  destruct db as [[[e|n] [e'|names]]|];
    cbn [Connection.name Connection.list_collection_names list_to_map foldr
         uncurry fst snd list_to_set];
    (split_and!;
     [rewrite !dom_insert_L, dom_empty_L; set_solver
     |rewrite !lookup_insert_ne by done; by rewrite lookup_insert_eq
     |rewrite lookup_insert_eq; cbn; intros [=]
     |]).
  - exists []. rewrite !lookup_insert_ne by done. rewrite lookup_insert_eq.
    split; [done|cbn; lia].
  - exists []. rewrite !lookup_insert_ne by done. rewrite lookup_insert_eq.
    split; [done|cbn; lia].
  - exists []. rewrite !lookup_insert_ne by done. rewrite lookup_insert_eq.
    split; [done|cbn; lia].
  - exists (take 10 names). split.
    + rewrite lookup_insert_ne by done. by rewrite lookup_insert_eq.
    + rewrite length_take. lia.
  - exists []. rewrite !lookup_insert_ne by done. rewrite lookup_insert_eq.
    split; [done|cbn; lia].
Qed.

(** X20: when the store is there and listing its collections fails, the
    report gives the first fifty characters of the error after "Connected
    but Error", still shows the connection as connected, names the database
    and lists no collection. *)
Theorem test_database_listing_fails database_url conn n e :
  Connection.name conn = inr n →
  Connection.list_collection_names conn = inl e →
  let r := test_database database_url (Some conn) in
  r !! "database"
  = Some (VStr ("⚠️  Connected but Error: " +:+ encode (take 50 e)))
  ∧ (length (take 50 e) ≤ 50)%nat
  ∧ take 50 e `prefix_of` e
  ∧ r !! "connection_status" = Some (VStr "Connected")
  ∧ r !! "database_name" = Some (VStr n)
  ∧ r !! "collections" = Some (VList []).
Proof.
  intros Hn He r. unfold r, test_database. rewrite Hn, He.
  cbn [list_to_map foldr uncurry fst snd].
  split_and!.
  - by rewrite lookup_insert_eq.
  - rewrite length_take. lia.
  - apply prefix_take.
  - rewrite lookup_insert_ne by done. by rewrite lookup_insert_eq.
  - rewrite !lookup_insert_ne by done. by rewrite lookup_insert_eq.
  - rewrite !lookup_insert_ne by done. by rewrite lookup_insert_eq.
Qed.

End Diagnostics.

(** ** Sharing between the argument and the result *)

(** X21: the copy is shallow: a list or sub-document the argument refers to
    under a key is the same object under that key of the result, itself
    unchanged, while the result is another object than the argument. *)
Theorem heap_serialize_shares `{Heap.HeapStr} (h : gmap positive Heap.obj)
    l e k l0 :
  h !! l = Some (Heap.ODict e) →
  e !! k = Some (Heap.HRef l0) →
  is_Some (h !! l0) →
  k ≠ "_id" →
  k ≠ "id" ∨ e !! "_id" = None →
  ∃ l' h' e',
    Heap.serialize_doc (Heap.HRef l) h = Some (Heap.HRef l', h')
    ∧ l' ≠ l
    ∧ h' !! l' = Some (Heap.ODict e')
    ∧ e' !! k = Some (Heap.HRef l0)
    ∧ h' !! l0 = h !! l0.
Proof.
  intros Hl Hk Hl0 Hne Hid.
  assert (Hsz : size e ≠ 0%nat).
  { rewrite map_size_non_empty_iff. intros ->. by rewrite lookup_empty in Hk. }
  assert (Hfresh : h !! fresh (dom h) = None)
    by apply not_elem_of_dom, is_fresh.
  rewrite (heap_serialize_run h l e) by done. cbv zeta.
  rewrite entries_after_fmap.
  eexists _, _, _. split_and!; [reflexivity| |apply lookup_insert_eq| |].
  - intros Heq. rewrite Heq in Hfresh. congruence.
  - rewrite lookup_fmap. unfold Heap.renamed.
    destruct (e !! "_id") as [v|] eqn:Ev.
    + destruct Hid as [Hid|]; [|done].
      rewrite lookup_insert_ne by done. rewrite lookup_delete_ne by done.
      by rewrite Hk.
    + by rewrite Hk.
  - rewrite lookup_insert_ne; [done|].
    intros Heq. rewrite Heq in Hfresh. rewrite Hfresh in Hl0.
    by destruct Hl0.
Qed.

(** ** The further statements, at the fixtures *)

Lemma order_with_refs_serialized :
  serialize_doc (H := plain_str) (Some order_with_refs)
  = Some order_with_refs_shown.
Proof. vm_compute. reflexivity. Qed.


Lemma empty_db_well_kept : well_kept empty_db.
Proof.
  intros name.
  assert (collection empty_db name = []) as ->.
  { unfold collection, empty_db. cbn. by rewrite lookup_empty. }
  split; [constructor|].
  intros i j d1 d2 Hi. by rewrite lookup_nil in Hi.
Qed.

Lemma serialize_doc_renames_id_witness :
  order_with_refs !! "_id" = Some (VOid 1%N)
  ∧ serialize_doc (H := plain_str) (Some order_with_refs)
    = Some order_with_refs_shown
  ∧ order_with_refs_shown !! "id"
    = Some (VStr (py_str (H := plain_str) (VOid 1%N)))
  ∧ order_with_refs_shown !! "_id" = None
  ∧ dom order_with_refs_shown = {["id"]} ∪ (dom order_with_refs ∖ {["_id"]})
  ∧ ∀ k, k ≠ "_id" → k ≠ "id" →
         order_with_refs_shown !! k = stringify <$> order_with_refs !! k.
Proof.
  assert (Hid : order_with_refs !! "_id" = Some (VOid 1%N)) by reflexivity.
  split; [exact Hid|]. split; [exact order_with_refs_serialized|].
  exact (serialize_doc_renames_id (H := plain_str) order_with_refs
           order_with_refs_shown (VOid 1%N) Hid order_with_refs_serialized).
Defined.

Lemma serialize_doc_keeps_containers_witness :
  serialize_doc (H := plain_str) (Some order_with_refs)
  = Some order_with_refs_shown
  ∧ order_with_refs !! "items"
    = Some (VList [VDict {["product_id" := VOid 2%N]}])
  ∧ order_with_refs_shown !! "items"
    = Some (VList [VDict {["product_id" := VOid 2%N]}]).
Proof.
  assert (Hitems : order_with_refs !! "items"
                   = Some (VList [VDict {["product_id" := VOid 2%N]}]))
    by reflexivity.
  split; [exact order_with_refs_serialized|]. split; [exact Hitems|].
  refine (serialize_doc_keeps_containers (H := plain_str) order_with_refs
            order_with_refs_shown "items" _
            order_with_refs_serialized Hitems _ _ _).
  - done.
  - by left.
  - left. by eexists.
Defined.

Lemma get_product_success_witness :
  resolves seeded_db "000000000000000000000000"
  ∧ ∃ o d shown,
      ObjectId.parse "000000000000000000000000" = Some o
      ∧ d ∈ collection seeded_db "product"
      ∧ d !! "_id" = Some (VOid o)
      ∧ get_product (H := plain_str) "000000000000000000000000"
          (Some seeded_db) =
          MkOutcome (inr (VDict shown)) (Some seeded_db)
            [OpFindOne "product" {["_id" := FOid o]}]
      ∧ shown !! "id" = Some (VStr (ObjectId.str o))
      ∧ shown !! "_id" = None
      ∧ ∀ k, k ≠ "_id" → k ≠ "id" → shown !! k = stringify <$> d !! k.
Proof.
  split; [exact tee_resolves|].
  exact (get_product_success (H := plain_str) seeded_db
           "000000000000000000000000" tee_resolves).
Defined.

Lemma list_products_by_category_witness :
  "Hoodies" ≠ ""
  ∧ list_products (H := plain_str) (Some "Hoodies") (Some true)
      (Some seeded_db) =
      MkOutcome
        (inr (VList (rendered (H := plain_str) <$>
           filter (λ d, category_is "Hoodies" d && featured_is true d)
             (collection seeded_db "product"))))
        (Some seeded_db)
        [OpFind "product" (build_query (Some "Hoodies") (Some true))].
Proof.
  assert (Hne : "Hoodies" ≠ "") by done.
  split; [exact Hne|].
  exact (list_products_by_category (H := plain_str) seeded_db "Hoodies"
           (Some true) Hne).
Defined.

Lemma seeded_bound : (next_oid seeded_db + 1 < ObjectId.bound)%N.
Proof. by vm_compute. Qed.

Lemma create_order_accepts_witness :
  Forall (λ i, resolves seeded_db (CartItem.product_id i))
    (Order.items (order_of [item_of "000000000000000000000000" 2]))
  ∧ fresh_ids seeded_db
  ∧ (next_oid seeded_db < ObjectId.bound)%N
  ∧ result (create_order (H := plain_str)
              (order_of [item_of "000000000000000000000000" 2])
              (Some seeded_db))
    = inr (VDict (<["id" := VStr "000000000000000000000003"]>
                    (model_dump
                       (order_of [item_of "000000000000000000000000" 2]))))
  ∧ count_of (final (create_order (H := plain_str)
                       (order_of [item_of "000000000000000000000000" 2])
                       (Some seeded_db))) "product" = 3%nat.
Proof.
  assert (Hall : Forall (λ i, resolves seeded_db (CartItem.product_id i))
            (Order.items (order_of [item_of "000000000000000000000000" 2])))
    by (constructor; [exact tee_resolves|constructor]).
  assert (Hb : (next_oid seeded_db < ObjectId.bound)%N) by (by vm_compute).
  destruct (create_order_accepts (H := plain_str) seeded_db
              (order_of [item_of "000000000000000000000000" 2])
              Hall seeded_fresh Hb) as (Hrun & Hprod & _).
  split_and!; [exact Hall|exact seeded_fresh|exact Hb| |].
  - rewrite Hrun. reflexivity.
  - rewrite Hrun. cbn [final count_of]. rewrite Hprod, seeded_products.
    reflexivity.
Defined.

Lemma create_order_empty_witness :
  Order.items (order_of []) = []
  ∧ fresh_ids seeded_db
  ∧ (next_oid seeded_db < ObjectId.bound)%N
  ∧ ops (create_order (H := plain_str) (order_of []) (Some seeded_db))
    = [OpInsert "order" (<["_id" := VOid 3%N]> (model_dump (order_of [])));
       OpFindOne "order" {["_id" := FOid 3%N]}].
Proof.
  assert (Hb : (next_oid seeded_db < ObjectId.bound)%N) by (by vm_compute).
  split_and!; [reflexivity|exact seeded_fresh|exact Hb|].
  rewrite (create_order_empty (H := plain_str) seeded_db (order_of [])
             eq_refl seeded_fresh Hb).
  reflexivity.
Defined.

Lemma create_product_keeps_others_witness :
  resolves seeded_db "000000000000000000000000"
  ∧ result (get_product (H := plain_str) "000000000000000000000000"
              (final (create_product (H := plain_str) a_cap (Some seeded_db))))
    = result (get_product (H := plain_str) "000000000000000000000000"
                (Some seeded_db)).
Proof.
  split; [exact tee_resolves|].
  exact (create_product_keeps_others (H := plain_str) seeded_db a_cap
           "000000000000000000000000" tee_resolves).
Defined.

Lemma successive_ids_differ_witness :
  fresh_ids seeded_db
  ∧ (next_oid seeded_db + 1 < ObjectId.bound)%N
  ∧ ∃ id1 id2,
      result (create_product (H := plain_str) a_cap (Some seeded_db))
      = inr (VDict (<["id" := VStr id1]> (model_dump a_cap)))
      ∧ result (create_product (H := plain_str) a_cap
                  (final (create_product (H := plain_str) a_cap
                            (Some seeded_db))))
        = inr (VDict (<["id" := VStr id2]> (model_dump a_cap)))
      ∧ id1 ≠ id2.
Proof.
  split_and!; [exact seeded_fresh|exact seeded_bound|].
  exact (successive_ids_differ (H := plain_str) seeded_db a_cap a_cap
           seeded_fresh seeded_bound).
Defined.

Lemma seeded_ids_fetch_witness :
  collection empty_db "product" = []
  ∧ (next_oid empty_db + 3 ≤ ObjectId.bound)%N
  ∧ ∃ p,
      SAMPLE_PRODUCTS !! 1%nat = Some p
      ∧ issued (next_oid empty_db) SAMPLE_PRODUCTS !! 1%nat
        = Some "000000000000000000000001"
      ∧ result (get_product (H := plain_str) "000000000000000000000001"
                  (final (seed_products (Some empty_db))))
        = inr (VDict (<["id" := VStr "000000000000000000000001"]>
                        (model_dump p))).
Proof.
  assert (He : collection empty_db "product" = []) by reflexivity.
  assert (Hb : (next_oid empty_db + 3 ≤ ObjectId.bound)%N) by (by vm_compute).
  split_and!; [exact He|exact Hb|].
  eexists. split; [reflexivity|].
  exact (seeded_ids_fetch (H := plain_str) empty_db 1 _ He Hb eq_refl).
Defined.

Lemma served_stores_well_kept_witness :
  well_kept empty_db
  ∧ ∃ db',
      serve (H := plain_str) (H0 := at_sign_email)
        [SeedProducts; CreateProduct a_cap;
         CreateOrder (order_of mixed_items); GetProduct "not-an-id";
         CreateOrder (order_of [item_of "000000000000000000000003" 1])]
        (Some empty_db) = Some db'
      ∧ well_kept db'
      ∧ fresh_ids db'
      ∧ (next_oid empty_db ≤ next_oid db')%N.
Proof.
  split; [exact empty_db_well_kept|].
  exact (served_stores_well_kept (H := plain_str) (H0 := at_sign_email)
           _ empty_db empty_db_well_kept).
Defined.

Lemma heap_serialize_shares_witness :
  two_objects !! 1%positive
  = Some (Heap.ODict (<["_id" := Heap.HOid 7%N]>
                        {["items" := Heap.HRef 2%positive]}))
  ∧ ∃ l' h' e',
      Heap.serialize_doc (H := heap_plain_str) (Heap.HRef 1) two_objects
      = Some (Heap.HRef l', h')
      ∧ l' ≠ 1%positive
      ∧ h' !! l' = Some (Heap.ODict e')
      ∧ e' !! "items" = Some (Heap.HRef 2%positive)
      ∧ h' !! 2%positive = two_objects !! 2%positive.
Proof.
  assert (Hl : two_objects !! 1%positive
               = Some (Heap.ODict (<["_id" := Heap.HOid 7%N]>
                                     {["items" := Heap.HRef 2%positive]})))
    by reflexivity.
  split; [exact Hl|].
  refine (heap_serialize_shares (H := heap_plain_str) two_objects 1 _
            "items" 2 Hl _ _ _ _).
  - reflexivity.
  - by eexists.
  - done.
  - by left.
Defined.

Lemma heap_serialize_refines_witness :
  (∀ h hv v, Heap.repr h hv v →
     Heap.str_other (HeapStr := heap_plain_str) h hv
     = str_other (PyStr := plain_str) v)
  ∧ ∃ r h' m',
      Heap.serialize_doc (H := heap_plain_str) (Heap.HRef 1) two_objects
        = Some (r, h')
      ∧ serialize_doc (H := plain_str) (Some two_objects_doc) = Some m'
      ∧ Heap.repr h' r (VDict m').
Proof.
  split; [exact plain_str_agree|].
  eapply (heap_serialize_refines (H := plain_str) (H0 := heap_plain_str)
            plain_str_agree).
  - apply lookup_insert_eq.
  - intros k. unfold two_objects_doc.
    destruct (decide (k = "_id")) as [->|Hid].
    { rewrite !lookup_insert_eq. repeat constructor. }
    rewrite !(lookup_insert_ne _ "_id" k) by done.
    destruct (decide (k = "items")) as [->|Hitems].
    { rewrite !lookup_singleton_eq. constructor.
      eapply Heap.repr_list; [reflexivity|]. repeat constructor. }
    rewrite !lookup_singleton_ne by done. constructor.
Defined.

Lemma test_database_listing_fails_witness :
  Connection.name stalled = inr "vistro"
  ∧ test_database (H := latin1) (Some "mongodb://localhost") (Some stalled)
      !! "database"
    = Some (VStr "⚠️  Connected but Error: timeout")
  ∧ test_database (H := latin1) (Some "mongodb://localhost") (Some stalled)
      !! "connection_status"
    = Some (VStr "Connected").
Proof.
  destruct (test_database_listing_fails (H := latin1)
              (Some "mongodb://localhost") stalled "vistro"
              [116; 105; 109; 101; 111; 117; 116]%N eq_refl eq_refl)
    as (Hdb & _ & _ & Hconn & _).
  split_and!; [reflexivity|exact Hdb|exact Hconn].
Defined.
